(** * scrape_cricinfo_player.py: a shallow embedding and its properties

    The Python module fetches Statsguru tables for one player, cleans and
    annotates them and exports them as CSV files and one workbook.  The
    embedding keeps the functions of the module under their own names.

    Conventions:
    - a Python [str] is a [string]; one [ascii] stands for one character
      (code points below 256), so [String.length] is Python's [len];
    - a Python [int] is a [Z]; [str(i)] is stdpp's [pretty];
    - a call that may raise returns a [Py.result]; the payload of [Raise]
      is [str(e)] of the exception;
    - an insertion-ordered [dict] is an association list with distinct keys;
    - the third-party calls ([requests], [pandas.read_html],
      [BeautifulSoup], the file system) are fields of a [World] record. *)

From Stdlib Require Import ZArith NArith QArith.QArith_base Ascii.
From stdpp Require Import base numbers option list strings pretty gmap.

Local Open Scope Z_scope.

(** ** The fragment of Python the module uses *)

Module Py.

Inductive result (A : Type) : Type :=
| Ok (a : A)
| Raise (msg : string).
Arguments Ok {A} a.
Arguments Raise {A} msg.

Definition bind {A B} (r : result A) (k : A → result B) : result B :=
  match r with
  | Ok a => k a
  | Raise e => Raise e
  end.

(** [str(i)] for an [int]. *)
Definition str_of_int (i : Z) : string := pretty i.

(** [sep.join(l)]. *)
Fixpoint join (sep : string) (l : list string) : string :=
  match l with
  | [] => ""
  | [x] => x
  | x :: r => x +:+ sep +:+ join sep r
  end.

(** [s[:n]]. *)
Fixpoint take (n : nat) (s : string) : string :=
  match n, s with
  | S n', String c r => String c (take n' r)
  | _, _ => ""
  end.

(** [list(s)]: the characters of [s]. *)
Fixpoint chars (s : string) : list ascii :=
  match s with
  | "" => []
  | String c r => c :: chars r
  end.

(** [c in s] for a character [c]. *)
Fixpoint has_char (c : ascii) (s : string) : bool :=
  match s with
  | "" => false
  | String d r => bool_decide (c = d) || has_char c r
  end.

(** [s.startswith(p)]. *)
Fixpoint startswith (p s : string) : bool :=
  match p, s with
  | "", _ => true
  | String a p', String b s' => bool_decide (a = b) && startswith p' s'
  | _, _ => false
  end.

(** [p in s] for a string [p]. *)
Fixpoint contains (p s : string) : bool :=
  startswith p s ||
  match s with
  | "" => false
  | String _ r => contains p r
  end.

(** [s.split(c, 1)[0]]: the text before the first [c]. *)
Fixpoint before (c : ascii) (s : string) : string :=
  match s with
  | "" => ""
  | String d r => if bool_decide (c = d) then "" else String d (before c r)
  end.

(** [s.split(c, 1)[1]] when [c] occurs in [s], and [""] otherwise. *)
Fixpoint after (c : ascii) (s : string) : string :=
  match s with
  | "" => ""
  | String d r => if bool_decide (c = d) then r else after c r
  end.

(** Characters that [str.strip()] removes, among the code points below
    256: TAB, LF, VT, FF, CR, FS, GS, RS, US, SPACE, NEL and NBSP. *)
Definition isspace (c : ascii) : bool :=
  let n := N_of_ascii c in
  ((9 <=? n) && (n <=? 13) || (28 <=? n) && (n <=? 32)
   || (n =? 133) || (n =? 160))%N.

Fixpoint lstrip (s : string) : string :=
  match s with
  | "" => ""
  | String c r => if isspace c then lstrip r else s
  end.

Fixpoint rstrip (s : string) : string :=
  match s with
  | "" => ""
  | String c r =>
      match rstrip r with
      | "" => if isspace c then "" else String c ""
      | r' => String c r'
      end
  end.

Definition strip (s : string) : string := rstrip (lstrip s).

(** An insertion-ordered [dict]: [d[k] = v] keeps the position of a key
    that is already there. *)
Fixpoint dict_set {K V} `{EqDecision K} (k : K) (v : V) (d : list (K * V))
  : list (K * V) :=
  match d with
  | [] => [(k, v)]
  | (k', v') :: r =>
      if decide (k = k') then (k, v) :: r else (k', v') :: dict_set k v r
  end.

Fixpoint dict_get {K V} `{EqDecision K} (k : K) (d : list (K * V))
  : option V :=
  match d with
  | [] => None
  | (k', v') :: r => if decide (k = k') then Some v' else dict_get k r
  end.

(** [enumerate(l, start=1)]. *)
Definition enumerate1 {A} (l : list A) : list (Z * A) :=
  imap (λ i x, (Z.of_nat i + 1, x)) l.

End Py.

Import Py.

Global Instance result_ret : MRet Py.result := @Py.Ok.
Global Instance result_bind : MBind Py.result := λ A B k r, Py.bind r k.

(** ** [QuerySpec] and [make_url] *)

Record QuerySpec := {
  type : string;
  view : option string;
  cls : option Z;
  extra_params : option (list (string * string));
}.

Global Instance QuerySpec_eq_dec : EqDecision QuerySpec.
Proof. solve_decision. Defined.

Definition BASE (player_id : Z) : string :=
  "https://stats.espncricinfo.com/ci/engine/player/"
    +:+ str_of_int player_id +:+ ".html".

(** [f"{k}={v}"]. *)
Definition fmt_param (kv : string * string) : string :=
  kv.1 +:+ "=" +:+ kv.2.

(** The list [params] at the end of [make_url]: each [let] is one statement
    of the source; [if spec.view:] and [if spec.extra_params:] test
    truthiness, [spec.cls is not None] does not. *)
Definition make_url_params (spec : QuerySpec) : list (string * string) :=
  let params := [] in
  let params :=
    match cls spec with
    | Some c => params ++ [("class", str_of_int c)]
    | None => params
    end in
  let params := params ++ [("template", "results")] in
  let params := params ++ [("type", type spec)] in
  let params :=
    match view spec with
    | Some ((String _ _) as v) => params ++ [("view", v)]
    | _ => params
    end in
  let params :=
    match extra_params spec with
    | Some ((_ :: _) as d) => params ++ d
    | _ => params
    end in
  params.

Definition make_url_qp (spec : QuerySpec) : string :=
  join ";" (fmt_param <$> make_url_params spec).

Definition make_url (player_id : Z) (spec : QuerySpec) : string :=
  BASE player_id +:+ "?" +:+ make_url_qp spec.

(** The query string of a URL: what follows the first [?]. *)
Definition query_string (url : string) : string := after "?" url.

(** The first parameter of a [;]-separated query string. *)
Definition first_param (qp : string) : string := before ";" qp.

(** ** [safe_filename] *)

(** The character class [[a-zA-Z0-9._-]]. *)
Definition filename_char (c : ascii) : bool :=
  let n := N_of_ascii c in
  ((97 <=? n) && (n <=? 122) || (65 <=? n) && (n <=? 90)
   || (48 <=? n) && (n <=? 57)
   || (n =? 46) || (n =? 95) || (n =? 45))%N.

(** [re.sub(r"[^a-zA-Z0-9._-]+", "_", s)]: every maximal run of characters
    outside the class becomes one underscore; [in_run] says that the
    previous character belonged to such a run. *)
Fixpoint sub_unsafe_runs (in_run : bool) (s : string) : string :=
  match s with
  | "" => ""
  | String c r =>
      if filename_char c then String c (sub_unsafe_runs false r)
      else if in_run then sub_unsafe_runs true r
      else String "_" (sub_unsafe_runs true r)
  end.

Definition safe_filename (s : string) : string :=
  let s := sub_unsafe_runs false (strip s) in
  if (180 <? String.length s)%nat then take 180 s else s.

(** ** Tables *)

(** A cell of a [DataFrame]: missing ([NaN]), text or an integer. *)
Inductive cell := NaN | Str (s : string) | Int (i : Z).

Global Instance cell_eq_dec : EqDecision cell.
Proof. solve_decision. Defined.

(** A [DataFrame]: the length of its index and its labelled columns, leftmost
    first.  [df.shape] is [(nrows df, length (columns df))]. *)
Record DataFrame := {
  nrows : nat;
  columns : list (string * list cell);
}.

Global Instance DataFrame_eq_dec : EqDecision DataFrame.
Proof. solve_decision. Defined.

Definition ncols (df : DataFrame) : nat := length (columns df).

(** Every column has one cell per row. *)
Definition df_wf (df : DataFrame) : Prop :=
  Forall (λ col, length col.2 = nrows df) (columns df).

Definition isna (c : cell) : bool :=
  match c with NaN => true | _ => false end.

(** The cells of row [i], one per column. *)
Definition row (df : DataFrame) (i : nat) : list cell :=
  (λ col, nth i col.2 NaN) <$> columns df.

(** [df.dropna(axis=1, how="all")]: a column stays when it has a cell that
    is not missing. *)
Definition dropna_columns (df : DataFrame) : DataFrame :=
  {| nrows := nrows df;
     columns := List.filter (λ col, negb (forallb isna col.2)) (columns df) |}.

(** The cells of [l] whose position is marked in [mask]. *)
Fixpoint select {A} (mask : list bool) (l : list A) : list A :=
  match mask, l with
  | b :: mask', x :: l' => if b then x :: select mask' l' else select mask' l'
  | _, _ => []
  end.

(** [df.dropna(axis=0, how="all")]: a row stays when it has a cell that is
    not missing. *)
Definition dropna_rows (df : DataFrame) : DataFrame :=
  let keep := (λ i, negb (forallb isna (row df i))) <$> seq 0 (nrows df) in
  {| nrows := length (List.filter id keep);
     columns := (λ col, (col.1, select keep col.2)) <$> columns df |}.

(** [df.insert(0, k, v)] with a scalar [v]: pandas refuses a label that the
    frame already has. *)
Definition df_insert0 (k : string) (v : cell) (df : DataFrame)
  : result DataFrame :=
  if bool_decide (k ∈ (columns df).*1)
  then Raise ("cannot insert " +:+ k +:+ ", already exists")
  else Ok {| nrows := nrows df;
             columns := (k, replicate (nrows df) v) :: columns df |}.

(** A [for] loop that threads an accumulator through a body that may
    raise. *)
Fixpoint foldM {A B} (f : B → A → result B) (acc : B) (l : list A)
  : result B :=
  match l with
  | [] => Ok acc
  | x :: r => acc' ← f acc x; foldM f acc' r
  end.

(** The body of the loop of [normalize_tables]. *)
Definition normalize_table (meta : list (string * string)) (i : Z)
    (df : DataFrame) : result DataFrame :=
  let df2 := df in
  df2 ← foldM (λ df2 kv, df_insert0 kv.1 (Str kv.2) df2) df2 meta;
  df_insert0 "_table_index" (Int i) df2.

Definition normalize_tables (dfs : list DataFrame)
    (meta : list (string * string)) : result (list DataFrame) :=
  foldM (λ out idf,
           df2 ← normalize_table meta idf.1 idf.2;
           Ok (out ++ [df2]))
        [] (enumerate1 dfs).

(** ** The outside world and the state of a run *)

(** What [session.get] returns when a response arrives. *)
Record Response := {
  status_code : Z;
  text : string;
}.

(** The third-party calls.  [session_get] raises when no response arrives
    (a transport failure: connection refused, timeout); [html_tables] is
    what the HTML parsers behind [pandas.read_html] find in a page: its
    tables in page order, none for markup without a table, or the
    exception of a parser that gives up; [no_tables_error] is the text of
    the exception that [pandas.read_html] raises when no table is found
    ([No tables found] where both parsers are installed); [soup_title] is
    the text of the page's [<title>], if it has one; the two file-system
    calls may raise. *)
Record World := {
  session_get : string → result Response;
  html_tables : string → result (list DataFrame);
  no_tables_error : string;
  soup_title : string → option string;
  os_makedirs : string → result unit;
  df_to_csv : string → DataFrame → result unit;
}.

(** [pd.read_html(html)]: the tables found in the page.  pandas never
    answers with an empty list: when no table is found it raises. *)
Definition pd_read_html (w : World) (html : string)
  : result (list DataFrame) :=
  found ← html_tables w html;
  match found with
  | [] => Raise (no_tables_error w)
  | _ :: _ => Ok found
  end.

(** The effects a run leaves behind, oldest first. *)
Inductive event :=
| EvGet (url : string)
| EvSleep (seconds : Q)
| EvMakedirs (path : string)
| EvToCsv (path : string) (df : DataFrame)
| EvToExcel (path sheet : string) (df : DataFrame).

(** The mutable state of [main]: its two collections and the trace. *)
Record RunState := {
  all_tables : list (string * list DataFrame);
  failures : list (string * string);
  trace : list event;
}.

Definition init_state : RunState :=
  {| all_tables := []; failures := []; trace := [] |}.

(** Statements: they change the state and return a value or raise. *)
Definition io (A : Type) : Type := RunState → RunState * result A.

Global Instance io_ret : MRet io := λ A a st, (st, Ok a).
Global Instance io_bind : MBind io := λ A B k m st,
  match m st with
  | (st', Ok a) => k a st'
  | (st', Raise e) => (st', Raise e)
  end.

Definition lift {A} (r : result A) : io A := λ st, (st, r).

Definition emit (e : event) : io unit := λ st,
  ({| all_tables := all_tables st; failures := failures st;
      trace := trace st ++ [e] |}, Ok ()).

(** [try: body except Exception as e: handler(str(e))]. *)
Definition try_except {A} (body : io A) (handler : string → io A) : io A :=
  λ st,
  match body st with
  | (st', Raise e) => handler e st'
  | r => r
  end.

(** [for x in l: body(x)]. *)
Fixpoint for_ {A} (l : list A) (body : A → io unit) : io unit :=
  match l with
  | [] => mret ()
  | x :: r => _ ← body x; for_ r body
  end.

(** A [for] loop that threads an accumulator. *)
Fixpoint fold_io {A B} (f : B → A → io B) (acc : B) (l : list A) : io B :=
  match l with
  | [] => mret acc
  | x :: r => acc' ← f acc x; fold_io f acc' r
  end.

(** [all_tables[key] = dfs] and [failures.append((url, msg))]. *)
Definition set_tables (key : string) (dfs : list DataFrame) : io unit :=
  λ st,
  ({| all_tables := dict_set key dfs (all_tables st);
      failures := failures st; trace := trace st |}, Ok ()).

Definition append_failure (url msg : string) : io unit := λ st,
  ({| all_tables := all_tables st;
      failures := failures st ++ [(url, msg)]; trace := trace st |}, Ok ()).

(** ** [fetch_html] and [extract_page_title] *)

Definition nl : string := String "010" "".

(** [f"HTTP {r.status_code} for {url}\nFirst 300 chars:\n{r.text[:300]}"]. *)
Definition http_error (r : Response) (url : string) : string :=
  "HTTP " +:+ str_of_int (status_code r) +:+ " for " +:+ url
    +:+ nl +:+ "First 300 chars:" +:+ nl +:+ take 300 (text r).

(** The text of the [ValueError] of [time.sleep]. *)
Definition sleep_error : string := "sleep length must be non-negative".

(** [time.sleep(secs)] for a finite number of seconds: a negative delay is
    refused with a [ValueError], and nothing is paused. *)
Definition time_sleep (secs : Q) : io unit :=
  if bool_decide (Qnum secs < 0)
  then lift (Raise sleep_error)
  else emit (EvSleep secs).

Definition fetch_html (w : World) (url : string) (sleep_s : Q) : io string :=
  _ ← emit (EvGet url);
  r ← lift (session_get w url);
  _ ← time_sleep sleep_s;
  if bool_decide (status_code r ≠ 200)
  then lift (Raise (http_error r url))
  else mret (text r).

Definition extract_page_title (w : World) (html : string) : string :=
  match soup_title w html with
  | Some title => title
  | None => "cricinfo_page"
  end.

(** ** [read_tables_from_html] *)

Definition lower (c : ascii) : ascii :=
  let n := N_of_ascii c in
  if ((65 <=? n) && (n <=? 90))%N then ascii_of_N (n + 32) else c.

Fixpoint startswith_nocase (p s : string) : bool :=
  match p, s with
  | "", _ => true
  | String a p', String b s' =>
      bool_decide (lower a = lower b) && startswith_nocase p' s'
  | _, _ => false
  end.

Fixpoint drop (n : nat) (s : string) : string :=
  match n, s with
  | S n', String _ r => drop n' r
  | _, _ => s
  end.

(** A match of [<!DOCTYPE[^>]*>] at the start of [s], ignoring case:
    what follows the match. *)
Definition match_doctype (s : string) : option string :=
  if startswith_nocase "<!DOCTYPE" s && has_char ">" (drop 9 s)
  then Some (after ">" (drop 9 s))
  else None.

(** [re.sub(r"<!DOCTYPE[^>]*>", "", html, count=1, flags=I|S)]: the leftmost
    match is removed. *)
Fixpoint strip_doctype (html : string) : string :=
  match match_doctype html with
  | Some rest => rest
  | None =>
      match html with
      | "" => ""
      | String c r => String c (strip_doctype r)
      end
  end.

(** The body of the loop over [dfs]: [cleaned] after one more table. *)
Definition clean_step (cleaned : list DataFrame) (df : DataFrame)
  : list DataFrame :=
  let df := dropna_columns df in
  let df := dropna_rows df in
  if bool_decide (nrows df = 0%nat) || bool_decide (ncols df = 0%nat)
  then cleaned
  else cleaned ++ [df].

Definition read_tables_from_html (w : World) (html : string)
  : result (list DataFrame) :=
  let html := strip_doctype html in
  dfs ← pd_read_html w html;
  let cleaned := [] in
  Ok (fold_left clean_step dfs cleaned).

(** ** [save_tables] and [write_excel_book] *)

(** [os.path.join(a, b)] on a POSIX system. *)
Definition path_join (a b : string) : string :=
  if startswith "/" b then b
  else if bool_decide (a = "") || startswith "/" (String.rev a) then a +:+ b
  else a +:+ "/" +:+ b.

(** The file name [save_tables] gives table [i] of [base_name]. *)
Definition csv_name (base_name : string) (i : Z) : string :=
  safe_filename (base_name +:+ "__table" +:+ str_of_int i +:+ ".csv").

(** The body of the loop of [save_tables]: [saved] after one more table. *)
Definition save_table (w : World) (out_dir base_name : string)
    (saved : list string) (idf : Z * DataFrame) : io (list string) :=
  let fn := csv_name base_name idf.1 in
  let path := path_join out_dir fn in
  _ ← emit (EvToCsv path idf.2);
  _ ← lift (df_to_csv w path idf.2);
  mret (saved ++ [path]).

Definition save_tables (w : World) (tables : list DataFrame)
    (out_dir base_name : string) : io (list string) :=
  _ ← emit (EvMakedirs out_dir);
  _ ← lift (os_makedirs w out_dir);
  let saved := [] in
  fold_io (save_table w out_dir base_name) saved (enumerate1 tables).

(** The sheet name of table [i] of a page key with [n] tables. *)
Definition sheet_name (key : string) (n : nat) (i : Z) : string :=
  let sheet := take 25 (safe_filename key) in
  let sheet :=
    if bool_decide (1 < n)%nat then sheet +:+ "_" +:+ str_of_int i
    else sheet in
  take 31 sheet.

(** The calls of [df.to_excel] that [write_excel_book] makes inside its
    [with] block, in order, each with the sheet name it passes.  Opening
    the workbook and saving it at the end of the block are left to
    [pd.ExcelWriter] and are not described here. *)
Definition write_excel_book (all_tables : list (string * list DataFrame))
    (excel_path : string) : io unit :=
  for_ all_tables (λ kd,
    for_ (enumerate1 kd.2) (λ idf,
      emit (EvToExcel excel_path (sheet_name kd.1 (length kd.2) idf.1)
                      idf.2))).

(** The sheets of a trace: name and table, in the order of writing. *)
Definition sheets_of (tr : list event) : list (string * DataFrame) :=
  omap (λ e, match e with
             | EvToExcel _ sheet df => Some (sheet, df)
             | _ => None
             end) tr.

(** ** [build_default_specs] *)

(** [a < b] on tuples of two strings, as Python compares them. *)
Definition item_ltb (a b : string * string) : bool :=
  match String.compare a.1 b.1 with
  | Lt => true
  | Eq => String.ltb a.2 b.2
  | Gt => false
  end.

Fixpoint insert_sorted (x : string * string) (l : list (string * string))
  : list (string * string) :=
  match l with
  | [] => [x]
  | y :: r => if item_ltb y x then y :: insert_sorted x r else x :: y :: r
  end.

(** [sorted(items)]: a stable sort. *)
Definition sorted (items : list (string * string))
  : list (string * string) :=
  foldr insert_sorted [] items.

(** The tuple [build_default_specs] de-duplicates by. *)
Definition spec_key_t : Type :=
  string * option string * option Z * list (string * string).

Definition spec_key (sp : QuerySpec) : spec_key_t :=
  (type sp, view sp, cls sp,
   sorted (match extra_params sp with
           | Some ((_ :: _) as d) => d
           | _ => []
           end)).

(** The loop under [# De-duplicate]: [uniq] and [seen] after one more
    spec. *)
Definition dedup_step (acc : list QuerySpec * gset spec_key_t)
    (sp : QuerySpec) : list QuerySpec * gset spec_key_t :=
  let '(uniq, seen) := acc in
  let key := spec_key sp in
  if bool_decide (key ∉ seen) then (uniq ++ [sp], {[key]} ∪ seen)
  else (uniq, seen).

Definition dedup (specs : list QuerySpec) : list QuerySpec :=
  (fold_left dedup_step specs ([], ∅)).1.

Definition classes_to_try : list Z := [1; 2; 3; 4; 5; 6].

Definition extra_views : list string := ["career"; "match"; "series"].

(** [QuerySpec(type=t, cls=c, view=v)]. *)
Definition spec_of (t : string) (c : Z) (v : string) : QuerySpec :=
  {| type := t; view := Some v; cls := Some c; extra_params := None |}.

(** The list [specs] before it is de-duplicated. *)
Definition candidate_specs : list QuerySpec :=
  let specs := [] in
  let specs :=
    fold_left (λ specs c,
      specs ++ [ spec_of "batting" c "innings";
                 spec_of "batting" c "results";
                 spec_of "bowling" c "innings";
                 spec_of "bowling" c "results";
                 spec_of "fielding" c "results";
                 spec_of "fielding" c "dismissal_summary" ])
      classes_to_try specs in
  let specs :=
    fold_left (λ specs c,
      fold_left (λ specs v,
        let specs := specs ++ [spec_of "batting" c v] in
        let specs := specs ++ [spec_of "bowling" c v] in
        let specs := specs ++ [spec_of "fielding" c v] in
        specs)
        extra_views specs)
      classes_to_try specs in
  specs.

Definition build_default_specs : list QuerySpec := dedup candidate_specs.

(** ** [main] *)

(** [f"type={spec.type}__view={spec.view or 'none'}__class={spec.cls or
    'none'}"]: [or] takes the right operand for [None], for the empty
    string and for zero. *)
Definition page_key (spec : QuerySpec) : string :=
  "type=" +:+ type spec
  +:+ "__view=" +:+ match view spec with
                    | Some ((String _ _) as v) => v
                    | _ => "none"
                    end
  +:+ "__class=" +:+ match cls spec with
                     | Some c => if bool_decide (c = 0) then "none"
                                 else str_of_int c
                     | None => "none"
                     end.

(** The dictionary [meta] of one page. *)
Definition page_meta (url title : string) (spec : QuerySpec)
  : list (string * string) :=
  [ ("_url", url);
    ("_title", title);
    ("_type", type spec);
    ("_view", match view spec with
              | Some ((String _ _) as v) => v
              | _ => ""
              end);
    ("_class", match cls spec with
               | Some c => str_of_int c
               | None => ""
               end) ].

(** The body of the loop over [specs]. *)
Definition main_body (w : World) (player_id : Z) (out_dir : string)
    (sleep_s : Q) (spec : QuerySpec) : io unit :=
  let url := make_url player_id spec in
  let key := page_key spec in
  try_except
    (html ← fetch_html w url sleep_s;
     let title := extract_page_title w html in
     dfs ← lift (read_tables_from_html w html);
     match dfs with
     | [] => mret ()
     | _ :: _ =>
         let meta := page_meta url title spec in
         dfs2 ← lift (normalize_tables dfs meta);
         _ ← set_tables key dfs2;
         _ ← save_tables w dfs2 out_dir key;
         mret ()
     end)
    (λ e, append_failure url e).

Definition main_loop (w : World) (player_id : Z) (out_dir : string)
    (sleep_s : Q) (specs : list QuerySpec) : io unit :=
  for_ specs (main_body w player_id out_dir sleep_s).

(** The URLs requested in a trace, in order. *)
Definition requested (tr : list event) : list string :=
  omap (λ e, match e with EvGet url => Some url | _ => None end) tr.

(** ** The report of [main] on its failures *)




(** [s * n]. *)
Fixpoint str_repeat (s : string) (n : nat) : string :=
  match n with
  | O => ""
  | S n' => s +:+ str_repeat s n'
  end.





(** ** Inputs for the concrete runs below *)

(** The spec of the module's docstring: the fielding dismissal summary of
    format class 3. *)
Definition dismissal_spec : QuerySpec :=
  spec_of "fielding" 3 "dismissal_summary".

(** A spec whose view is set to the empty string. *)
Definition empty_view_spec : QuerySpec :=
  {| type := "batting"; view := Some ""; cls := None; extra_params := None |}.

(** A table of three rows and two columns, nothing missing. *)
Definition catches : DataFrame :=
  {| nrows := 3;
     columns := [ ("Dismissal", [Str "caught"; Str "stumped"; Str "run out"]);
                  ("Total", [Int 12; Int 1; Int 2]) ] |}.

(** A table with one empty row and one empty column. *)
Definition sparse : DataFrame :=
  {| nrows := 3;
     columns := [ ("Span", [Str "2019-2024"; NaN; Str "2021-2021"]);
                  ("Unnamed", [NaN; NaN; NaN]);
                  ("Mat", [Int 48; NaN; Int 2]) ] |}.

(** A table that holds nothing but missing cells. *)
Definition blank : DataFrame :=
  {| nrows := 2; columns := [ ("Unnamed", [NaN; NaN]) ] |}.

(** No request gets through: every [session.get] times out. *)
Definition offline : World :=
  {| session_get := λ _, Raise "Read timed out.";
     html_tables := λ _, Ok [];
     no_tables_error := "No tables found";
     soup_title := λ _, None;
     os_makedirs := λ _, Ok ();
     df_to_csv := λ _ _, Ok () |}.

(** A server that knows the dismissal summary (one table), answers the
    batting innings of class 1 with a page without tables and the fielding
    results of class 1 with a page whose one table holds nothing, and has
    nothing else. *)
Definition statsguru : World :=
  {| session_get := λ url,
       if bool_decide (url = make_url 625371 dismissal_spec)
       then Ok {| status_code := 200; text := "<html>summary</html>" |}
       else if bool_decide
                 (url = make_url 625371 (spec_of "batting" 1 "innings"))
       then Ok {| status_code := 200; text := "<html>nothing</html>" |}
       else if bool_decide
                 (url = make_url 625371 (spec_of "fielding" 1 "results"))
       then Ok {| status_code := 200; text := "<html>blank</html>" |}
       else Ok {| status_code := 404; text := "Not Found" |};
     html_tables := λ html,
       if bool_decide (html = "<html>summary</html>") then Ok [catches]
       else if bool_decide (html = "<html>career</html>")
       then Ok [sparse; blank]
       else if bool_decide (html = "<html>blank</html>") then Ok [blank]
       else Ok [];
     no_tables_error := "No tables found";
     soup_title := λ _, Some "Statsguru";
     os_makedirs := λ _, Ok ();
     df_to_csv := λ _ _, Ok () |}.

(** The same server with a disk on which no directory can be made, and
    with a disk that is full after the first file. *)
Definition readonly_disk : World :=
  {| session_get := session_get statsguru;
     html_tables := html_tables statsguru;
     no_tables_error := no_tables_error statsguru;
     soup_title := soup_title statsguru;
     os_makedirs := λ _, Raise "Permission denied";
     df_to_csv := λ _ _, Ok () |}.

Definition full_disk : World :=
  {| session_get := session_get statsguru;
     html_tables := html_tables statsguru;
     no_tables_error := no_tables_error statsguru;
     soup_title := soup_title statsguru;
     os_makedirs := λ _, Ok ();
     df_to_csv := λ path _,
       if bool_decide (path = "out/page__table1.csv") then Ok ()
       else Raise "No space left on device" |}.

(** ** Definitions that the statements below use *)

(** The state with more events at the end of its trace. *)
Definition push (st : RunState) (evs : list event) : RunState :=
  {| all_tables := all_tables st; failures := failures st;
     trace := trace st ++ evs |}.

(** The sheet names of one page key, in the order of its tables. *)
Definition sheet_names (key : string) (dfs : list DataFrame) : list string :=
  (λ idf : Z * DataFrame, sheet_name key (length dfs) idf.1)
    <$> enumerate1 dfs.

(** The sheet names of a whole workbook. *)
Definition book_names (tables : list (string * list DataFrame))
  : list string :=
  tables ≫= λ kd, sheet_names kd.1 kd.2.

(** The events of [write_excel_book]. *)
Definition excel_events (excel_path : string)
    (tables : list (string * list DataFrame)) : list event :=
  tables ≫= λ kd,
    (λ idf : Z * DataFrame,
       EvToExcel excel_path (sheet_name kd.1 (length kd.2) idf.1) idf.2)
      <$> enumerate1 kd.2.

(** The characters of [str(i)]: the decimal digits and the minus sign. *)
Definition int_char (c : ascii) : bool :=
  let n := N_of_ascii c in ((48 <=? n) && (n <=? 57) || (n =? 45))%N.

(** The parameters of a URL as the description of [make_url] words them:
    the class if there is one, the template marker, the type, the view if
    there is one, the extra parameters. *)
Definition described_params (spec : QuerySpec) : list (string * string) :=
  match cls spec with
  | Some c => [("class", str_of_int c)]
  | None => []
  end
  ++ [("template", "results"); ("type", type spec)]
  ++ match view spec with
     | Some v => [("view", v)]
     | None => []
     end
  ++ default [] (extra_params spec).

(** The same, with the view only when it is a non-empty string. *)
Definition emitted_params (spec : QuerySpec) : list (string * string) :=
  match cls spec with
  | Some c => [("class", str_of_int c)]
  | None => []
  end
  ++ [("template", "results"); ("type", type spec)]
  ++ match view spec with
     | Some v => if bool_decide (v = "") then [] else [("view", v)]
     | None => []
     end
  ++ default [] (extra_params spec).

(** No [&] in any text of a spec. *)
Definition ampersand_free (spec : QuerySpec) : bool :=
  negb (has_char "&" (type spec))
  && negb (has_char "&" (default "" (view spec)))
  && forallb (λ kv : string * string,
                negb (has_char "&" kv.1) && negb (has_char "&" kv.2))
             (default [] (extra_params spec)).

(** De-duplication as the description words it: of the specs with one key,
    the first stays, and the order of those that stay is kept. *)
Fixpoint keep_first (specs : list QuerySpec) : list QuerySpec :=
  match specs with
  | [] => []
  | sp :: r =>
      sp :: List.filter (λ sp', bool_decide (spec_key sp' ≠ spec_key sp))
                        (keep_first r)
  end.

(** The rows of a table, top to bottom. *)
Definition rows (df : DataFrame) : list (list cell) :=
  row df <$> seq 0 (nrows df).

(** A row, or the cells of a column, with nothing but missing cells. *)
Definition all_missing (cells : list cell) : bool := forallb isna cells.

(** The first [n] rows of columns given by their cells. *)
Definition rows_of (n : nat) (cols : list (list cell)) : list (list cell) :=
  (λ i, (λ c, nth i c NaN) <$> cols) <$> seq 0 n.

(** What the extractor does to one table, and which tables it keeps. *)
Definition clean_table (df : DataFrame) : DataFrame :=
  dropna_rows (dropna_columns df).

Definition has_cells (df : DataFrame) : bool :=
  negb (bool_decide (nrows df = 0%nat) || bool_decide (ncols df = 0%nat)).

(** What holds of each default spec: a view, a class from 1 to 6, no extra
    parameters, and a page key of the plain form without [none]. *)
Definition default_spec_ok (sp : QuerySpec) : bool :=
  match view sp, cls sp, extra_params sp with
  | Some v, Some c, None =>
      bool_decide (1 ≤ c ≤ 6)
      && bool_decide (page_key sp
                      = "type=" +:+ type sp +:+ "__view=" +:+ v
                          +:+ "__class="
                          +:+ String (ascii_of_N (48 + Z.to_N c)) "")
      && negb (contains "none" (page_key sp))
  | _, _, _ => false
  end.

(** The base name of a CSV file once it is sanitized: the part of
    [csv_name] in front of the suffix. *)
Definition sanitized_base (base_name : string) : string :=
  sub_unsafe_runs false (lstrip base_name).

(** The suffix [save_tables] puts behind the base name. *)
Definition csv_suffix (i : Z) : string :=
  "__table" +:+ str_of_int i +:+ ".csv".

(** The path of the CSV file of table [i]. *)
Definition csv_path (out_dir base_name : string) (i : Z) : string :=
  path_join out_dir (csv_name base_name i).

(** The events of the file system: creating a directory, writing a CSV
    file. *)
Definition is_fs_event (e : event) : bool :=
  match e with
  | EvMakedirs _ | EvToCsv _ _ => true
  | _ => false
  end.

(** What [main] keeps under a page key: at least one table, each with a
    row, with seven columns or more, the leftmost being the ordinal. *)
Definition page_ok (dfs : list DataFrame) : Prop :=
  dfs ≠ []
  ∧ Forall (λ df, (1 ≤ nrows df)%nat ∧ (7 ≤ ncols df)%nat
                  ∧ (columns df).*1 !! 0%nat = Some "_table_index") dfs.

(** The spec with another class, with another view, and without its extra
    parameters. *)
Definition with_cls (c : option Z) (spec : QuerySpec) : QuerySpec :=
  {| type := type spec; view := view spec; cls := c;
     extra_params := extra_params spec |}.

Definition with_view (v : option string) (spec : QuerySpec) : QuerySpec :=
  {| type := type spec; view := v; cls := cls spec;
     extra_params := extra_params spec |}.

Definition without_extra (spec : QuerySpec) : QuerySpec :=
  {| type := type spec; view := view spec; cls := cls spec;
     extra_params := None |}.

(** ** Strings *)

Section strings.
Implicit Types (s t : string) (c : ascii) (n : nat).

Lemma str_app_cons c s t : String c s +:+ t = String c (s +:+ t).
Proof. done. Qed.

Lemma str_length_app s t :
  String.length (s +:+ t) = (String.length s + String.length t)%nat.
Proof. induction s as [|a s IH]; simpl; [done|]. by rewrite IH. Qed.

Lemma str_length_take n s : (String.length (take n s) ≤ n)%nat.
Proof.
  revert s; induction n as [|n IH]; intros [|a s]; simpl; try lia.
  specialize (IH s). lia.
Qed.

Lemma str_take_all n s : (String.length s ≤ n)%nat → take n s = s.
Proof.
  revert s; induction n as [|n IH]; intros [|a s]; simpl; try done; try lia.
  intros ?. f_equal. apply IH. lia.
Qed.

Lemma has_char_app c s t : has_char c (s +:+ t) = has_char c s || has_char c t.
Proof.
  induction s as [|a s IH]; simpl; [done|].
  by rewrite IH, orb_assoc.
Qed.

Lemma after_app c s t :
  has_char c s = false → after c (s +:+ String c t) = t.
Proof.
  induction s as [|a s IH]; simpl.
  - intros _. by rewrite bool_decide_eq_true_2.
  - intros [Ha Hs]%orb_false_elim. rewrite Ha. by apply IH.
Qed.

Lemma before_app c s t :
  has_char c s = false → before c (s +:+ String c t) = s.
Proof.
  induction s as [|a s IH]; simpl.
  - intros _. by rewrite bool_decide_eq_true_2.
  - intros [Ha Hs]%orb_false_elim. rewrite Ha. f_equal. by apply IH.
Qed.

Lemma before_none c s : has_char c s = false → before c s = s.
Proof.
  induction s as [|a s IH]; simpl; [done|].
  intros [Ha Hs]%orb_false_elim. rewrite Ha. f_equal. by apply IH.
Qed.

Lemma str_app_assoc s t u : (s +:+ t) +:+ u = s +:+ t +:+ u.
Proof. induction s as [|a s IH]; [done|]. by rewrite !str_app_cons, IH. Qed.

Lemma chars_take n s (P : ascii → Prop) :
  Forall P (chars s) →
  Forall P (chars (take n s)).
Proof.
  revert s; induction n as [|n IH]; intros [|a s]; simpl;
    try (intros; by constructor).
  inversion 1; subst. constructor; auto.
Qed.
End strings.

Lemma pretty_N_char_int x : int_char (pretty_N_char x) = true.
Proof. unfold pretty_N_char. by repeat case_match. Qed.

Lemma pretty_N_go_chars (x : N) s :
  Forall (λ c, int_char c = true) (chars s) →
  Forall (λ c, int_char c = true) (chars (pretty_N_go x s)).
Proof.
  revert s. induction (N.lt_wf_0 x) as [x _ IH]; intros s Hs.
  destruct (decide (x = 0%N)) as [->|].
  - by rewrite pretty_N_go_0.
  - rewrite pretty_N_go_step by lia. apply IH.
    + apply N.div_lt; lia.
    + simpl. constructor; [apply pretty_N_char_int | done].
Qed.

Lemma pretty_N_chars (x : N) :
  Forall (λ c, int_char c = true) (chars (pretty x)).
Proof.
  unfold pretty, pretty_N. case_decide.
  - by repeat constructor.
  - apply pretty_N_go_chars. constructor.
Qed.

Lemma str_of_int_chars i :
  Forall (λ c, int_char c = true) (chars (str_of_int i)).
Proof.
  unfold str_of_int, pretty, pretty_Z. destruct i as [|p|p].
  - by repeat constructor.
  - apply pretty_N_chars.
  - simpl. constructor; [done | apply pretty_N_chars].
Qed.

Lemma has_char_not_int c i :
  int_char c = false → has_char c (str_of_int i) = false.
Proof.
  intros Hc. pose proof (str_of_int_chars i) as H.
  induction (str_of_int i) as [|a s IH]; simpl; [done|].
  inversion H as [|?? Ha Hs]; subst.
  rewrite IH by done. rewrite orb_false_r.
  apply bool_decide_eq_false. congruence.
Qed.

Lemma pretty_N_go_length (k : nat) (x : N) s :
  (x < 10 ^ N.of_nat k)%N →
  (String.length (pretty_N_go x s) ≤ k + String.length s)%nat.
Proof.
  revert x s. induction k as [|k IH]; intros x s Hx.
  - assert (x = 0%N) as -> by (simpl in Hx; lia).
    rewrite pretty_N_go_0. lia.
  - destruct (decide (x = 0%N)) as [->|].
    + rewrite pretty_N_go_0. lia.
    + rewrite pretty_N_go_step by lia.
      etrans; [apply IH|simpl; lia].
      rewrite Nat2N.inj_succ, N.pow_succ_r' in Hx.
      apply N.Div0.div_lt_upper_bound. lia.
Qed.

(** Ordinals below 100000 print in at most five characters. *)
Lemma str_of_int_length5 i :
  0 ≤ i < 100000 → (String.length (str_of_int i) ≤ 5)%nat.
Proof.
  intros Hi. unfold str_of_int, pretty, pretty_Z.
  destruct i as [|p|p]; [simpl; lia | idtac | lia].
  unfold pretty, pretty_positive, pretty, pretty_N.
  case_decide; [simpl; lia|].
  etrans; [apply (pretty_N_go_length 5)|simpl; lia].
  change (10 ^ N.of_nat 5)%N with 100000%N. lia.
Qed.

(** ** [safe_filename] keeps to its alphabet and its length *)

Lemma sub_unsafe_runs_chars b s :
  Forall (λ c, filename_char c = true) (chars (sub_unsafe_runs b s)).
Proof.
  revert b. induction s as [|a s IH]; intros b; simpl; [constructor|].
  destruct (filename_char a) eqn:Ha; simpl; [by constructor|].
  destruct b; simpl; [done|]. by constructor.
Qed.

Lemma safe_filename_chars s :
  Forall (λ c, filename_char c = true) (chars (safe_filename s)).
Proof.
  unfold safe_filename. case_match.
  - apply chars_take, sub_unsafe_runs_chars.
  - apply sub_unsafe_runs_chars.
Qed.

Lemma safe_filename_length s : (String.length (safe_filename s) ≤ 180)%nat.
Proof.
  unfold safe_filename.
  destruct (180 <? _)%nat eqn:Hlen.
  - apply str_length_take.
  - by apply Nat.ltb_ge in Hlen.
Qed.

(** C9. Whatever the input, [safe_filename] returns only characters of
    [[A-Za-z0-9._-]] and at most 180 of them; the CSV names of
    [save_tables], which pass the whole name with its suffix through
    [safe_filename], stay within 180 characters and so within 180 plus the
    length of the suffix. *)
Theorem safe_filename_sanitized (s : string) :
  Forall (λ c, filename_char c = true) (chars (safe_filename s))
  ∧ (String.length (safe_filename s) ≤ 180)%nat
  ∧ ∀ (base_name : string) (i : Z),
      Forall (λ c, filename_char c = true) (chars (csv_name base_name i))
      ∧ (String.length (csv_name base_name i) ≤ 180)%nat
      ∧ (String.length (csv_name base_name i)
         ≤ 180 + String.length ("__table" +:+ str_of_int i +:+ ".csv"))%nat.
Proof.
  split; [apply safe_filename_chars|].
  split; [apply safe_filename_length|].
  intros base_name i. unfold csv_name.
  split; [apply safe_filename_chars|].
  pose proof (safe_filename_length
                (base_name +:+ "__table" +:+ str_of_int i +:+ ".csv")).
  lia.
Qed.

(** ** The sheets of the workbook *)

Lemma push_nil st : push st [] = st.
Proof. destruct st. unfold push; simpl. by rewrite app_nil_r. Qed.

Lemma push_push st evs1 evs2 :
  push (push st evs1) evs2 = push st (evs1 ++ evs2).
Proof. unfold push; simpl. by rewrite app_assoc. Qed.

Lemma emit_push e st : emit e st = (push st [e], Ok ()).
Proof. done. Qed.

(** A loop whose body only emits events emits them in the order of the
    list. *)
Lemma for_push {A} (l : list A) (body : A → io unit) (g : A → list event) :
  (∀ x st, body x st = (push st (g x), Ok ())) →
  ∀ st, for_ l body st = (push st (l ≫= g), Ok ()).
Proof.
  intros Hbody. induction l as [|x l IH]; intros st; simpl.
  - by rewrite push_nil.
  - unfold mbind at 1, io_bind. rewrite Hbody, IH, push_push. done.
Qed.

Lemma for_emit {A} (l : list A) (f : A → event) st :
  for_ l (λ x, emit (f x)) st = (push st (f <$> l), Ok ()).
Proof.
  revert st. induction l as [|x l IH]; intros st; simpl.
  - by rewrite push_nil.
  - unfold mbind at 1, io_bind. rewrite emit_push, IH, push_push. done.
Qed.

Lemma write_excel_book_events tables excel_path st :
  write_excel_book tables excel_path st
  = (push st (excel_events excel_path tables), Ok ()).
Proof.
  unfold write_excel_book, excel_events. apply for_push.
  intros kd st'. apply for_emit.
Qed.

Lemma sheets_of_app tr1 tr2 :
  sheets_of (tr1 ++ tr2) = sheets_of tr1 ++ sheets_of tr2.
Proof. apply omap_app. Qed.

Lemma sheets_of_to_excel excel_path (name : Z * DataFrame → string)
    (l : list (Z * DataFrame)) :
  (sheets_of ((λ idf, EvToExcel excel_path (name idf) idf.2) <$> l)).*1
  = name <$> l.
Proof.
  induction l as [|x l IH]; [done|].
  rewrite !fmap_cons. rewrite <-IH. done.
Qed.

Lemma sheets_of_excel_events excel_path tables :
  (sheets_of (excel_events excel_path tables)).*1 = book_names tables.
Proof.
  induction tables as [|kd tables IH]; [done|].
  change (excel_events excel_path (kd :: tables))
    with (((λ idf : Z * DataFrame,
              EvToExcel excel_path (sheet_name kd.1 (length kd.2) idf.1)
                        idf.2) <$> enumerate1 kd.2)
            ++ excel_events excel_path tables).
  change (book_names (kd :: tables))
    with (sheet_names kd.1 kd.2 ++ book_names tables).
  rewrite sheets_of_app, fmap_app, IH. f_equal.
  apply (sheets_of_to_excel excel_path
           (λ idf, sheet_name kd.1 (length kd.2) idf.1)).
Qed.

Lemma str_take_take n m s : (n ≤ m)%nat → take m (take n s) = take n s.
Proof. intros ?. apply str_take_all. pose proof (str_length_take n s). lia. Qed.

Lemma sheet_name_single key i :
  sheet_name key 1 i = take 25 (safe_filename key).
Proof.
  unfold sheet_name. rewrite bool_decide_eq_false_2 by lia.
  apply str_take_take. lia.
Qed.

Lemma sheet_name_length key n i :
  (String.length (sheet_name key n i) ≤ 31)%nat.
Proof. apply str_length_take. Qed.

Lemma sheet_names_lookup key dfs (i : nat) :
  sheet_names key dfs !! i
  = (λ _, sheet_name key (length dfs) (Z.of_nat i + 1)) <$> dfs !! i.
Proof.
  unfold sheet_names, enumerate1.
  rewrite list_lookup_fmap, list_lookup_imap. by destruct (dfs !! i).
Qed.

Lemma sheet_names_lookup_Some key dfs (i : nat) df :
  dfs !! i = Some df →
  sheet_names key dfs !! i
  = Some (sheet_name key (length dfs) (Z.of_nat i + 1)).
Proof. intros Hi. by rewrite sheet_names_lookup, Hi. Qed.

Lemma trace_write_excel_book tables excel_path st :
  trace (write_excel_book tables excel_path st).1
  = trace st ++ excel_events excel_path tables.
Proof. by rewrite write_excel_book_events. Qed.

Lemma book_names_singleton key dfs :
  book_names [(key, dfs)] = sheet_names key dfs.
Proof. unfold book_names. simpl. apply app_nil_r. Qed.

(** With several tables, the names of the tables 100000 and 100001 of the
    dismissal summary are cut to the same 31 characters. *)
Lemma sheet_name_cut (n : nat) :
  (1 < n)%nat →
  sheet_name (page_key dismissal_spec) n 100000
  = sheet_name (page_key dismissal_spec) n 100001.
Proof.
  intros Hn. unfold sheet_name. rewrite bool_decide_eq_true_2 by done.
  by vm_compute.
Qed.

(** With fewer than 100000 tables the suffix fits into the six characters
    that the cut at 25 leaves, and the ordinals keep the names apart. *)
Lemma sheet_names_NoDup key dfs :
  Z.of_nat (length dfs) < 100000 → NoDup (sheet_names key dfs).
Proof.
  intros Hlen. apply NoDup_alt. intros i j name.
  rewrite !sheet_names_lookup.
  destruct (dfs !! i) eqn:Hi; [|done]. destruct (dfs !! j) eqn:Hj; [|done].
  apply lookup_lt_Some in Hi, Hj. simpl. intros [= <-] [= Heq].
  unfold sheet_name in Heq. case_bool_decide; [|lia].
  pose proof (str_length_take 25 (safe_filename key)).
  pose proof (str_of_int_length5 (Z.of_nat i + 1) ltac:(lia)).
  pose proof (str_of_int_length5 (Z.of_nat j + 1) ltac:(lia)).
  do 2 (rewrite (str_take_all 31) in Heq
    by (rewrite !str_length_app; change (String.length "_") with 1%nat; lia)).
  apply (inj (String.app _)), (inj (String.app _)) in Heq.
  apply (inj pretty) in Heq. lia.
Qed.

(** C7, as worded, fails: the one table of the dismissal summary goes to the
    sheet [type_fielding__view_dismi], the sanitized key cut at 25
    characters, not at 31. *)
Lemma single_table_sheet_not_cut_at_31 :
  let key := page_key dismissal_spec in
  sheets_of (trace (write_excel_book [(key, [catches])] "book.xlsx"
                                     init_state).1)
  ≠ [(take 31 (safe_filename key), catches)].
Proof. vm_compute. intros [=]. Qed.

(** C7, amended. A page key with exactly one table has that table written
    to the sheet named by the sanitized key cut at 25 characters. *)
Theorem single_table_sheet (tables : list (string * list DataFrame))
    (excel_path : string) (st : RunState) (key : string) (df : DataFrame) :
  (key, [df]) ∈ tables →
  (take 25 (safe_filename key), df)
    ∈ sheets_of (trace (write_excel_book tables excel_path st).1).
Proof.
  intros Hin. rewrite write_excel_book_events. simpl.
  rewrite sheets_of_app. apply elem_of_app. right.
  apply list_elem_of_omap.
  exists (EvToExcel excel_path (sheet_name key 1 1) df). split.
  - apply list_elem_of_bind. exists (key, [df]). split; [|done].
    simpl. apply list_elem_of_singleton. done.
  - by rewrite sheet_name_single.
Qed.

Lemma single_table_sheet_witness :
  ("type_fielding__view_dismi", catches)
    ∈ sheets_of (trace (write_excel_book
                          [(page_key dismissal_spec, [catches])]
                          "book.xlsx" init_state).1).
Proof.
  apply (single_table_sheet [(page_key dismissal_spec, [catches])]
           "book.xlsx" init_state (page_key dismissal_spec) catches).
  apply list_elem_of_singleton. reflexivity.
Defined.

(** Names of different page keys can coincide: the class is the end of
    the key and falls to the cut at 25. *)
Example sheet_name_across_keys :
  sheet_name (page_key (spec_of "batting" 1 "innings")) 1 1
  = sheet_name (page_key (spec_of "batting" 2 "innings")) 1 1.
Proof. reflexivity. Qed.

(** Names repeat within one page key as well, from six digits on: on a
    page with 100001 tables the suffixes of the last two, [_100000] and
    [_100001], are both cut to [_10000]. *)
Lemma sheet_names_collide :
  let tables :=
    [(page_key dismissal_spec, replicate (Z.to_nat 100001) catches)] in
  ¬ NoDup (sheets_of (trace (write_excel_book tables "book.xlsx"
                                              init_state).1)).*1.
Proof.
  intros tables. unfold tables.
  rewrite trace_write_excel_book, sheets_of_app, fmap_app.
  rewrite sheets_of_excel_events, book_names_singleton.
  change ((sheets_of (trace init_state)).*1) with (@nil string).
  rewrite app_nil_l, NoDup_alt. intros Hdup.
  assert (Z.to_nat 99999 = Z.to_nat 100000) as Heq; [|lia].
  eapply Hdup.
  - apply (sheet_names_lookup_Some _ _ _ catches), lookup_replicate_2. lia.
  - rewrite (sheet_names_lookup_Some _ _ _ catches)
      by (apply lookup_replicate_2; lia).
    rewrite length_replicate, !Z2Nat.id by lia.
    assert (1 < Z.to_nat 100001)%nat as Hn by lia.
    change (99999 + 1) with 100000. change (100000 + 1) with 100001.
    by rewrite (sheet_name_cut _ Hn).
Qed.

Lemma sheet_names_same_cut key1 key2 (dfs1 dfs2 : list DataFrame) :
  take 25 (safe_filename key1) = take 25 (safe_filename key2) →
  length dfs1 = length dfs2 →
  sheet_names key1 dfs1 = sheet_names key2 dfs2.
Proof.
  intros Hcut Hlen. apply list_eq. intros i.
  rewrite !sheet_names_lookup.
  unfold sheet_name. rewrite Hcut, Hlen.
  destruct (dfs1 !! i) as [df1|] eqn:H1, (dfs2 !! i) as [df2|] eqn:H2;
    try done.
  - apply lookup_lt_Some in H1. apply lookup_ge_None in H2. lia.
  - apply lookup_lt_Some in H2. apply lookup_ge_None in H1. lia.
Qed.

(** C8. Sheet names repeat within one workbook: two page keys whose
    sanitized forms agree on their first 25 characters, with equally many
    tables, get the same sheet names, table by table, so a workbook with
    both pages names every sheet of the first page a second time.  The
    keys of [main] end in the class, beyond the cut at 25: the batting
    innings of classes 1 and 2, two tables each, both ask for the sheets
    [type_batting__view_inning_1] and [type_batting__view_inning_2]. *)
Theorem sheet_names_repeat_across_keys (key1 key2 : string)
    (dfs1 dfs2 : list DataFrame) (excel_path : string) (st : RunState) :
  key1 ≠ key2 →
  take 25 (safe_filename key1) = take 25 (safe_filename key2) →
  length dfs1 = length dfs2 →
  dfs1 ≠ [] →
  let names :=
    (sheets_of (trace (write_excel_book [(key1, dfs1); (key2, dfs2)]
                                        excel_path st).1)).*1 in
  names
  = (sheets_of (trace st)).*1
      ++ sheet_names key1 dfs1 ++ sheet_names key1 dfs1
  ∧ ¬ NoDup names.
Proof.
  intros _ Hcut Hlen Hne names.
  assert (names = (sheets_of (trace st)).*1
                    ++ sheet_names key1 dfs1 ++ sheet_names key1 dfs1)
    as ->.
  { unfold names.
    rewrite trace_write_excel_book, sheets_of_app, fmap_app.
    rewrite sheets_of_excel_events. unfold book_names. simpl.
    by rewrite app_nil_r, <-(sheet_names_same_cut key1 key2 dfs1 dfs2). }
  split; [done|].
  intros [_ [_ Hdup]]%NoDup_app.
  apply NoDup_app in Hdup as [_ [Hdis _]].
  destruct dfs1 as [|df dfs1]; [done|].
  eapply Hdis; apply list_elem_of_here.
Qed.

Lemma sheet_names_repeat_across_keys_witness :
  let tables :=
    [(page_key (spec_of "batting" 1 "innings"), [catches; sparse]);
     (page_key (spec_of "batting" 2 "innings"), [sparse; catches])] in
  (sheets_of (trace (write_excel_book tables "book.xlsx" init_state).1)).*1
  = ["type_batting__view_inning_1"; "type_batting__view_inning_2";
     "type_batting__view_inning_1"; "type_batting__view_inning_2"].
Proof.
  intros tables.
  apply (proj1 (sheet_names_repeat_across_keys
                  (page_key (spec_of "batting" 1 "innings"))
                  (page_key (spec_of "batting" 2 "innings"))
                  [catches; sparse] [sparse; catches] "book.xlsx"
                  init_state
                  ltac:(by vm_compute) ltac:(by vm_compute)
                  ltac:(reflexivity) ltac:(done))).
Defined.

(** X23. The names of the sheets of a workbook are those of its page keys,
    one after the other; each has at most 31 characters; and the names of
    one page key are pairwise distinct among themselves when it has fewer
    than 100000 tables. *)
Theorem sheet_names_bounded_distinct
    (tables : list (string * list DataFrame)) (excel_path : string)
    (st : RunState) :
  (sheets_of (trace (write_excel_book tables excel_path st).1)).*1
  = (sheets_of (trace st)).*1 ++ book_names tables
  ∧ Forall (λ name, (String.length name ≤ 31)%nat) (book_names tables)
  ∧ ∀ key dfs,
      (key, dfs) ∈ tables →
      Z.of_nat (length dfs) < 100000 →
      NoDup (sheet_names key dfs).
Proof.
  split; [|split].
  - rewrite write_excel_book_events. simpl.
    by rewrite sheets_of_app, fmap_app, sheets_of_excel_events.
  - apply Forall_forall. intros name.
    unfold book_names. rewrite list_elem_of_bind.
    intros (kd & Hname & _). unfold sheet_names in Hname.
    apply list_elem_of_fmap in Hname as (idf & -> & _).
    apply sheet_name_length.
  - intros key dfs _. apply sheet_names_NoDup.
Qed.

Lemma sheet_names_bounded_distinct_witness :
  NoDup (sheet_names (page_key dismissal_spec) [catches; sparse; blank]).
Proof.
  apply (sheet_names_bounded_distinct
           [(page_key dismissal_spec, [catches; sparse; blank])]
           "book.xlsx" init_state).
  - apply list_elem_of_singleton. reflexivity.
  - simpl. lia.
Defined.

(** ** [fetch_html]: the request, the pause and the status *)

Lemma io_bind_eq {A B} (m : io A) (k : A → io B) st :
  (m ≫= k) st
  = match m st with
    | (st', Ok a) => k a st'
    | (st', Raise e) => (st', Raise e)
    end.
Proof. done. Qed.

Lemma emit_bind {B} (e : event) (k : unit → io B) st :
  (emit e ≫= k) st = k () (push st [e]).
Proof. done. Qed.

Lemma lift_bind {A B} (r : result A) (k : A → io B) st :
  (lift r ≫= k) st
  = match r with
    | Ok a => k a st
    | Raise e => (st, Raise e)
    end.
Proof. by destruct r. Qed.

Lemma time_sleep_ok secs st :
  (0 <= secs)%Q → time_sleep secs st = (push st [EvSleep secs], Ok ()).
Proof.
  unfold Qle, time_sleep. simpl. intros Hsecs.
  by rewrite bool_decide_eq_false_2 by lia.
Qed.

Lemma time_sleep_negative secs st :
  (secs < 0)%Q → time_sleep secs st = (st, Raise sleep_error).
Proof.
  unfold Qlt, time_sleep. simpl. intros Hsecs.
  by rewrite bool_decide_eq_true_2 by lia.
Qed.

Lemma fetch_html_response w url sleep_s st r :
  session_get w url = Ok r →
  (0 <= sleep_s)%Q →
  fetch_html w url sleep_s st
  = (push st [EvGet url; EvSleep sleep_s],
     if bool_decide (status_code r = 200) then Ok (text r)
     else Raise (http_error r url)).
Proof.
  intros Hget Hsleep. unfold fetch_html.
  rewrite emit_bind, lift_bind, Hget, io_bind_eq.
  rewrite (time_sleep_ok _ _ Hsleep), push_push. simpl.
  destruct (decide (status_code r = 200)) as [Hok|Hko].
  - by rewrite bool_decide_eq_false_2, bool_decide_eq_true_2 by tauto.
  - by rewrite bool_decide_eq_true_2, bool_decide_eq_false_2.
Qed.

Lemma fetch_html_negative w url sleep_s st r :
  session_get w url = Ok r →
  (sleep_s < 0)%Q →
  fetch_html w url sleep_s st = (push st [EvGet url], Raise sleep_error).
Proof.
  intros Hget Hsleep. unfold fetch_html.
  rewrite emit_bind, lift_bind, Hget, io_bind_eq.
  by rewrite (time_sleep_negative _ _ Hsleep).
Qed.

Lemma fetch_html_transport w url sleep_s st e :
  session_get w url = Raise e →
  fetch_html w url sleep_s st = (push st [EvGet url], Raise e).
Proof.
  intros Hget. unfold fetch_html.
  by rewrite emit_bind, lift_bind, Hget.
Qed.




(** ** [make_url]: the parameters and their order *)

Lemma make_url_params_emitted spec :
  make_url_params spec = emitted_params spec.
Proof.
  unfold make_url_params, emitted_params.
  destruct (cls spec), (view spec) as [[|a v]|],
    (extra_params spec) as [[|kv d]|]; simpl; by rewrite ?app_nil_r.
Qed.

Lemma BASE_no_question_mark player_id : has_char "?" (BASE player_id) = false.
Proof.
  unfold BASE. rewrite !has_char_app.
  by rewrite (has_char_not_int "?" player_id).
Qed.

Lemma BASE_no_ampersand player_id : has_char "&" (BASE player_id) = false.
Proof.
  unfold BASE. rewrite !has_char_app.
  by rewrite (has_char_not_int "&" player_id).
Qed.

Lemma has_char_join c sep l :
  has_char c sep = false →
  Forall (λ x, has_char c x = false) l →
  has_char c (join sep l) = false.
Proof.
  intros Hsep. induction 1 as [|x l Hx Hl IH]; [done|].
  destruct l as [|y l]; [done|].
  change (join sep (x :: y :: l)) with (x +:+ sep +:+ join sep (y :: l)).
  by rewrite !has_char_app, Hx, Hsep, IH.
Qed.

Lemma emitted_params_no_ampersand spec :
  ampersand_free spec = true →
  Forall (λ x, has_char "&" x = false) (fmt_param <$> emitted_params spec).
Proof.
  unfold ampersand_free, emitted_params.
  intros [[Ht Hv]%andb_prop He]%andb_prop.
  apply negb_true_iff in Ht, Hv.
  rewrite !fmap_app. repeat apply Forall_app_2.
  - destruct (cls spec) as [c|]; [|constructor]. repeat constructor.
    unfold fmt_param; simpl. rewrite !has_char_app.
    by rewrite (has_char_not_int "&" c).
  - repeat constructor. unfold fmt_param; simpl.
    by rewrite !has_char_app, Ht.
  - destruct (view spec) as [v|]; [|constructor].
    case_bool_decide; [constructor|]. repeat constructor.
    unfold fmt_param; simpl. simpl in Hv. by rewrite !has_char_app, Hv.
  - apply Forall_fmap, Forall_forall. intros kv Hkv.
    rewrite forallb_forall in He. apply list_elem_of_In, He in Hkv.
    apply andb_prop in Hkv as [H1 H2]. apply negb_true_iff in H1, H2.
    unfold fmt_param; simpl. by rewrite !has_char_app, H1, H2.
Qed.

Lemma first_param_class spec c :
  cls spec = Some c →
  first_param (join ";" (fmt_param <$> emitted_params spec))
  = "class=" +:+ str_of_int c.
Proof.
  intros Hc. unfold emitted_params, first_param. rewrite Hc.
  change (join ";" (fmt_param <$> ([("class", str_of_int c)] ++ ?l)))
    with (("class=" +:+ str_of_int c) +:+ ";" +:+ join ";" (fmt_param <$> l)).
  apply before_app. rewrite has_char_app.
  by rewrite (has_char_not_int ";" c).
Qed.

Lemma first_param_template spec :
  cls spec = None →
  first_param (join ";" (fmt_param <$> emitted_params spec))
  = "template=results".
Proof.
  intros Hc. unfold emitted_params, first_param. rewrite Hc.
  change (join ";" (fmt_param <$> ([] ++ [("template", "results");
                                          ("type", type spec)] ++ ?l)))
    with ("template=results" +:+
          ";" +:+ join ";" (fmt_param <$> (("type", type spec) :: l))).
  by apply before_app.
Qed.

(** C1, as worded, fails: a view that is set to the empty string is not
    emitted, so the URL of [empty_view_spec] lacks the [view=] that the
    description puts after the type. *)
Lemma make_url_skips_empty_view :
  view empty_view_spec ≠ None
  ∧ make_url 625371 empty_view_spec
    ≠ BASE 625371 +:+ "?"
        +:+ join ";" (fmt_param <$> described_params empty_view_spec).
Proof. split; [done|]. vm_compute. intros [=]. Qed.

(** C1, amended. The query string of [make_url] is the [;]-joined list of
    the class (when [cls] is set), [template=results], the type, the view
    (when it is set and not empty) and the extra parameters in their order;
    its first parameter is [class=<value>] when [cls] is set and
    [template=results] otherwise; and [make_url] itself puts no [&] into
    the URL. *)
Theorem make_url_query (player_id : Z) (spec : QuerySpec) :
  make_url player_id spec
  = BASE player_id +:+ "?"
      +:+ join ";" (fmt_param <$> emitted_params spec)
  ∧ query_string (make_url player_id spec)
    = join ";" (fmt_param <$> emitted_params spec)
  ∧ first_param (query_string (make_url player_id spec))
    = match cls spec with
      | Some c => "class=" +:+ str_of_int c
      | None => "template=results"
      end
  ∧ (ampersand_free spec = true →
     has_char "&" (make_url player_id spec) = false).
Proof.
  assert (query_string (make_url player_id spec)
          = join ";" (fmt_param <$> emitted_params spec)) as Hq.
  { unfold query_string, make_url, make_url_qp.
    rewrite make_url_params_emitted.
    apply after_app, BASE_no_question_mark. }
  split; [|split; [done|split]].
  - unfold make_url, make_url_qp. by rewrite make_url_params_emitted.
  - rewrite Hq. destruct (cls spec) as [c|] eqn:Hc.
    + by apply first_param_class.
    + by apply first_param_template.
  - intros Hfree. unfold make_url, make_url_qp.
    rewrite make_url_params_emitted, !has_char_app, BASE_no_ampersand.
    simpl. apply has_char_join; [done|].
    by apply emitted_params_no_ampersand.
Qed.

Lemma make_url_query_witness :
  has_char "&" (make_url 625371 dismissal_spec) = false.
Proof.
  apply (make_url_query 625371 dismissal_spec). reflexivity.
Defined.

(** ** [build_default_specs]: de-duplication *)

Section dedup.
Implicit Types (sp : QuerySpec) (specs uniq : list QuerySpec).
Implicit Types (seen : gset spec_key_t) (P : spec_key_t → bool).

Lemma filter_filter_andb {A} (f g : A → bool) (l : list A) :
  List.filter f (List.filter g l) = List.filter (λ x, g x && f x) l.
Proof.
  induction l as [|x l IH]; simpl; [done|].
  destruct (g x); simpl; [|done]. destruct (f x); by rewrite IH.
Qed.

Lemma filter_sublist {A} (f : A → bool) (l : list A) :
  List.filter f l `sublist_of` l.
Proof.
  induction l as [|x l IH]; simpl; [constructor|].
  destruct (f x); by constructor.
Qed.

Lemma keep_first_filter P specs :
  keep_first (List.filter (λ sp, P (spec_key sp)) specs)
  = List.filter (λ sp, P (spec_key sp)) (keep_first specs).
Proof.
  induction specs as [|sp specs IH]; simpl; [done|].
  destruct (P (spec_key sp)) eqn:HP; simpl.
  - f_equal. rewrite IH, !filter_filter_andb.
    apply List.filter_ext. intros sp'. apply andb_comm.
  - rewrite IH, filter_filter_andb.
    apply List.filter_ext. intros sp'.
    destruct (P (spec_key sp')) eqn:HP'; [|by rewrite andb_false_r].
    rewrite andb_true_r. symmetry. apply bool_decide_eq_true.
    congruence.
Qed.

(** The loop, from any [uniq] and [seen]: it appends the first
    occurrences of the keys not seen yet. *)
Lemma dedup_fold specs uniq seen :
  (fold_left dedup_step specs (uniq, seen)).1
  = uniq ++ keep_first
              (List.filter (λ sp, bool_decide (spec_key sp ∉ seen)) specs).
Proof.
  revert uniq seen.
  induction specs as [|sp specs IH]; intros uniq seen; simpl.
  - by rewrite app_nil_r.
  - case_bool_decide as Hseen; simpl; [|apply IH].
    rewrite IH, <-app_assoc. simpl. do 2 f_equal.
    pose proof (keep_first_filter
                  (λ k, bool_decide (k ≠ spec_key sp))
                  (List.filter (λ sp', bool_decide (spec_key sp' ∉ seen))
                               specs)) as Hkf.
    simpl in Hkf. rewrite <-Hkf.
    rewrite filter_filter_andb. f_equal.
    apply List.filter_ext. intros sp'.
    apply eq_true_iff_eq. rewrite andb_true_iff, !bool_decide_eq_true.
    rewrite not_elem_of_union, not_elem_of_singleton. tauto.
Qed.

Lemma dedup_keep_first specs : dedup specs = keep_first specs.
Proof.
  unfold dedup. rewrite dedup_fold. simpl. f_equal.
  induction specs as [|sp specs IH]; simpl; [done|].
  rewrite bool_decide_eq_true_2 by apply not_elem_of_empty. by f_equal.
Qed.

Lemma NoDup_fmap_filter {A B} (f : A → B) (p : A → bool) (l : list A) :
  NoDup (f <$> l) → NoDup (f <$> List.filter p l).
Proof.
  intros Hl. eapply sublist_NoDup; [done|].
  apply fmap_sublist, filter_sublist.
Qed.

Lemma keep_first_NoDup specs : NoDup (spec_key <$> keep_first specs).
Proof.
  induction specs as [|sp specs IH]; simpl; [constructor|].
  constructor; [|by apply NoDup_fmap_filter].
  rewrite list_elem_of_fmap. intros (sp' & Hkey & Hin).
  apply list_elem_of_In, List.filter_In in Hin as [_ Hne].
  apply bool_decide_eq_true in Hne. congruence.
Qed.

Lemma keep_first_sublist specs : keep_first specs `sublist_of` specs.
Proof.
  induction specs as [|sp specs IH]; simpl; [constructor|].
  constructor. etrans; [apply filter_sublist|done].
Qed.

Lemma keep_first_keys specs sp :
  sp ∈ specs → spec_key sp ∈ spec_key <$> keep_first specs.
Proof.
  induction specs as [|sp' specs IH]; simpl; [by intros ?%elem_of_nil|].
  intros [->|Hin]%elem_of_cons; [left|].
  destruct (decide (spec_key sp = spec_key sp')) as [->|Hne]; [left|].
  right. apply IH, list_elem_of_fmap in Hin as (sp'' & Hkey & Hin).
  apply list_elem_of_fmap. exists sp''. split; [done|].
  apply list_elem_of_In, List.filter_In. split; [by apply list_elem_of_In|].
  apply bool_decide_eq_true. congruence.
Qed.
End dedup.

(** C5. The keys of the specs of [build_default_specs] are pairwise
    distinct; the list is what stays of the candidates when only the first
    spec of each key is kept, in the order of the candidates; every
    candidate's key is still there; and the list is a constant: the
    function reads nothing, neither an argument nor the world nor the state
    of a run. *)
Theorem build_default_specs_unique :
  NoDup (spec_key <$> build_default_specs)
  ∧ build_default_specs = keep_first candidate_specs
  ∧ build_default_specs `sublist_of` candidate_specs
  ∧ (∀ sp, sp ∈ candidate_specs →
           spec_key sp ∈ spec_key <$> build_default_specs)
  ∧ length build_default_specs = 90%nat.
Proof.
  unfold build_default_specs. rewrite dedup_keep_first.
  split; [apply keep_first_NoDup|].
  split; [done|].
  split; [apply keep_first_sublist|].
  split; [apply keep_first_keys|].
  by vm_compute.
Qed.

(** ** The default specs and their page keys *)

Lemma default_specs_ok : forallb default_spec_ok build_default_specs = true.
Proof. by vm_compute. Qed.

(** C10. Each spec of [build_default_specs] has a view, a class from 1 to
    6 and no extra parameters; its page key is
    [type=<type>__view=<view>__class=<digit>], and [none] does not occur in
    it. *)
Theorem default_specs_page_keys :
  Forall (λ sp,
            ∃ (v : string) (c : Z),
              view sp = Some v ∧ cls sp = Some c ∧ 1 ≤ c ≤ 6
              ∧ extra_params sp = None
              ∧ page_key sp
                = "type=" +:+ type sp +:+ "__view=" +:+ v +:+ "__class="
                    +:+ String (ascii_of_N (48 + Z.to_N c)) ""
              ∧ contains "none" (page_key sp) = false)
         build_default_specs.
Proof.
  apply Forall_forall. intros sp Hin.
  pose proof default_specs_ok as Hok. rewrite forallb_forall in Hok.
  apply list_elem_of_In, Hok in Hin. unfold default_spec_ok in Hin.
  destruct (view sp) as [v|], (cls sp) as [c|], (extra_params sp);
    try done.
  apply andb_prop in Hin as [[Hc Hkey]%andb_prop Hnone].
  apply bool_decide_eq_true in Hc, Hkey. apply negb_true_iff in Hnone.
  by exists v, c.
Qed.

(** ** [normalize_tables]: six leading columns *)

Section normalize.
Implicit Types (df : DataFrame) (meta : list (string * string)).

(** The metadata columns in front of a table of [n] rows: the last key
    of [meta] is the leftmost. *)
Local Abbreviation meta_columns n meta :=
  (reverse ((λ kv : string * string, (kv.1, replicate n (Str kv.2)))
              <$> meta)).

Lemma df_insert0_Ok k v df df2 :
  df_insert0 k v df = Ok df2 →
  nrows df2 = nrows df
  ∧ columns df2 = (k, replicate (nrows df) v) :: columns df.
Proof.
  unfold df_insert0. case_bool_decide; [done|]. by intros [= <-].
Qed.

Lemma df_insert0_fresh k v df :
  k ∉ (columns df).*1 → ∃ df2, df_insert0 k v df = Ok df2.
Proof.
  intros Hk. unfold df_insert0. rewrite bool_decide_eq_false_2 by done.
  by eexists.
Qed.

Lemma insert_meta_Ok meta df df2 :
  foldM (λ df2 kv, df_insert0 kv.1 (Str kv.2) df2) df meta = Ok df2 →
  nrows df2 = nrows df
  ∧ columns df2 = meta_columns (nrows df) meta ++ columns df.
Proof.
  revert df. induction meta as [|kv meta IH]; intros df; simpl.
  - by intros [= <-].
  - destruct (df_insert0 kv.1 (Str kv.2) df) as [df1|e] eqn:Hins; [|done].
    apply df_insert0_Ok in Hins as [Hn Hc].
    intros (Hn2 & Hc2)%IH. split; [congruence|].
    rewrite Hc2, Hc, Hn, reverse_cons, <-app_assoc. done.
Qed.

Lemma insert_meta_fresh meta df :
  NoDup meta.*1 →
  Forall (λ k, k ∉ (columns df).*1) meta.*1 →
  ∃ df2, foldM (λ df2 kv, df_insert0 kv.1 (Str kv.2) df2) df meta = Ok df2.
Proof.
  revert df. induction meta as [|kv meta IH]; intros df; simpl.
  - by eexists.
  - intros [Hkv Hnd]%NoDup_cons [Hk Hfresh]%Forall_cons.
    destruct (df_insert0_fresh kv.1 (Str kv.2) df Hk) as [df1 Hins].
    rewrite Hins. simpl. apply IH; [done|].
    apply df_insert0_Ok in Hins as [_ ->]. simpl.
    rewrite Forall_forall in Hfresh. apply Forall_forall.
    intros k Hin. rewrite not_elem_of_cons. split; [|by apply Hfresh].
    by intros ->.
Qed.

Lemma normalize_table_Ok meta i df df2 :
  normalize_table meta i df = Ok df2 →
  nrows df2 = nrows df
  ∧ columns df2 = ("_table_index", replicate (nrows df) (Int i))
                    :: meta_columns (nrows df) meta ++ columns df.
Proof.
  unfold normalize_table.
  destruct (foldM _ df meta) as [df1|e] eqn:Hmeta; [|done]. simpl.
  apply insert_meta_Ok in Hmeta as [Hn Hc].
  intros [Hn2 Hc2]%df_insert0_Ok. split; congruence.
Qed.

Lemma normalize_table_fresh meta i df :
  NoDup meta.*1 →
  Forall (λ k, k ∉ (columns df).*1) ("_table_index" :: meta.*1) →
  "_table_index" ∉ meta.*1 →
  ∃ df2, normalize_table meta i df = Ok df2.
Proof.
  intros Hnd [Hidx Hfresh]%Forall_cons Hmeta. unfold normalize_table.
  destruct (insert_meta_fresh meta df Hnd Hfresh) as [df1 Hins].
  rewrite Hins. simpl. apply df_insert0_fresh.
  apply insert_meta_Ok in Hins as [_ ->].
  rewrite fmap_app, not_elem_of_app. split; [|done].
  rewrite fmap_reverse, elem_of_reverse, <-list_fmap_compose.
  by rewrite (list_fmap_ext _ fst meta).
Qed.

(** The loop of [normalize_tables], from any [out] and any offset [k] of
    the ordinals. *)
Lemma normalize_loop_Ok meta dfs (k : nat) out out' :
  foldM (λ out idf, df2 ← normalize_table meta idf.1 idf.2;
                    Ok (out ++ [df2]))
        out (imap (λ i df, (Z.of_nat (k + i) + 1, df)) dfs) = Ok out' →
  ∃ new, out' = out ++ new ∧ length new = length dfs
    ∧ ∀ (i : nat) df, dfs !! i = Some df →
        ∃ df2, new !! i = Some df2
          ∧ normalize_table meta (Z.of_nat (k + i) + 1) df = Ok df2.
Proof.
  revert k out. induction dfs as [|df dfs IH]; intros k out; simpl.
  - intros [= <-]. exists []. by rewrite app_nil_r.
  - destruct (normalize_table meta _ df) as [df2|e] eqn:Hdf; simpl;
      [|done].
    rewrite (imap_ext _ (λ i df, (Z.of_nat (S k + i) + 1, df)))
      by (intros; simpl; f_equal; lia).
    intros (new & -> & Hlen & Hnew)%IH.
    exists (df2 :: new). rewrite <-app_assoc. split; [done|].
    split; [simpl; lia|]. intros [|i] df'; simpl.
    + intros [= <-]. exists df2. split; [done|].
      rewrite <-Hdf. f_equal; lia.
    + intros (df2' & ? & Hn)%Hnew. exists df2'. split; [done|].
      rewrite <-Hn. f_equal; lia.
Qed.

Lemma normalize_loop_fresh meta dfs (k : nat) out :
  NoDup meta.*1 →
  "_table_index" ∉ meta.*1 →
  Forall (λ df, Forall (λ k, k ∉ (columns df).*1)
                       ("_table_index" :: meta.*1)) dfs →
  ∃ out',
    foldM (λ out idf, df2 ← normalize_table meta idf.1 idf.2;
                      Ok (out ++ [df2]))
          out (imap (λ i df, (Z.of_nat (k + i) + 1, df)) dfs) = Ok out'.
Proof.
  intros Hnd Hidx. revert k out.
  induction dfs as [|df dfs IH]; intros k out Hfresh; simpl.
  - by eexists.
  - apply Forall_cons in Hfresh as [Hdf Hdfs].
    destruct (normalize_table_fresh meta (Z.of_nat (k + 0) + 1) df)
      as [df2 ->]; [done..|]. simpl.
    rewrite (imap_ext _ (λ i df, (Z.of_nat (S k + i) + 1, df)))
      by (intros; simpl; f_equal; lia).
    by apply IH.
Qed.

Lemma nth_replicate_lt {A} (n r : nat) (x d : A) :
  (r < n)%nat → nth r (replicate n x) d = x.
Proof.
  revert r. induction n as [|n IH]; intros [|r] ?; simpl; try lia; [done|].
  apply IH. lia.
Qed.
End normalize.

(** C3. For tables [dfs] and a metadata dictionary of five entries:
    [normalize_tables] returns when no table already has a column named as
    a metadata key or [_table_index] (pandas refuses to insert a label
    twice); and whenever it returns, it returns one table per input table,
    in the same order, where table [i] (from 0) has the rows of input [i],
    six more columns, namely [_table_index] holding [i + 1] and the five
    metadata columns in front of the original ones, and in every row the
    same six leading cells. *)
Theorem normalize_tables_shape (dfs : list DataFrame)
    (meta : list (string * string)) :
  length meta = 5%nat →
  NoDup meta.*1 →
  ("_table_index" ∉ meta.*1 →
   Forall (λ df, Forall (λ k, k ∉ (columns df).*1)
                        ("_table_index" :: meta.*1)) dfs →
   ∃ out, normalize_tables dfs meta = Ok out)
  ∧ ∀ out, normalize_tables dfs meta = Ok out →
      length out = length dfs
      ∧ ∀ (i : nat) df, dfs !! i = Some df →
          ∃ df2, out !! i = Some df2
            ∧ nrows df2 = nrows df
            ∧ ncols df2 = (ncols df + 6)%nat
            ∧ columns df2
              = ("_table_index", replicate (nrows df) (Int (Z.of_nat i + 1)))
                  :: reverse ((λ kv : string * string,
                                 (kv.1, replicate (nrows df) (Str kv.2)))
                                <$> meta)
                  ++ columns df
            ∧ ∀ r : nat, (r < nrows df2)%nat →
                firstn 6 (row df2 r)
                = Int (Z.of_nat i + 1) :: reverse (Str <$> meta.*2).
Proof.
  intros Hlen Hnd. split.
  - intros Hidx Hfresh. unfold normalize_tables, enumerate1.
    by apply (normalize_loop_fresh meta dfs 0 []).
  - intros out Hout. unfold normalize_tables, enumerate1 in Hout.
    apply (normalize_loop_Ok meta dfs 0 []) in Hout
      as (new & -> & Hnew & Hall).
    split; [done|]. intros i df Hdf.
    destruct (Hall i df Hdf) as (df2 & Hi & Hnorm).
    exists df2. split; [done|].
    apply normalize_table_Ok in Hnorm as [Hn Hc]. simpl in Hc.
    split; [done|]. split; [|split; [done|]].
    + unfold ncols. rewrite Hc. simpl.
      rewrite length_app, length_reverse, length_fmap, Hlen. lia.
    + intros r Hr. unfold row. rewrite Hc, Hn in *.
      destruct meta as [|m1 [|m2 [|m3 [|m4 [|m5 [|]]]]]]; try done.
      simpl. by rewrite !nth_replicate_lt.
Qed.

Lemma normalize_tables_shape_witness :
  ∃ out,
    normalize_tables [catches; sparse]
      (page_meta (make_url 625371 dismissal_spec) "Statsguru" dismissal_spec)
    = Ok out.
Proof.
  apply (normalize_tables_shape [catches; sparse]
           (page_meta (make_url 625371 dismissal_spec) "Statsguru"
                      dismissal_spec)).
  - reflexivity.
  - apply (bool_decide_unpack _). by vm_compute.
  - apply (bool_decide_unpack _). by vm_compute.
  - apply (bool_decide_unpack _). by vm_compute.
Defined.

(** ** [read_tables_from_html]: empty columns, empty rows, empty tables *)

Section cleaning.
Implicit Types (df : DataFrame) (mask : list bool).
Implicit Types (cols : list (list cell)).

Lemma select_nil {A} mask : select mask (@nil A) = [].
Proof. by destruct mask. Qed.

Lemma select_fmap {A} (p : A → bool) (l : list A) :
  select (p <$> l) l = List.filter p l.
Proof.
  induction l as [|x l IH]; csimpl; [done|]. by rewrite IH.
Qed.

Lemma rows_rows_of df : rows df = rows_of (nrows df) (columns df).*2.
Proof.
  unfold rows, rows_of, row. apply list_fmap_ext. intros _ i _.
  by rewrite <-list_fmap_compose.
Qed.

Lemma rows_of_S n cols :
  rows_of (S n) cols
  = ((λ c, nth 0 c NaN) <$> cols) :: rows_of n (tail <$> cols).
Proof.
  unfold rows_of. simpl. f_equal.
  rewrite <-fmap_S_seq, <-list_fmap_compose.
  apply list_fmap_ext. intros _ i _. simpl.
  rewrite <-list_fmap_compose. apply list_fmap_ext. intros _ c _. simpl.
  by destruct c, i.
Qed.

(** Selecting cells column by column selects the rows. *)
Lemma rows_of_select mask cols :
  Forall (λ c, length c = length mask) cols →
  rows_of (length (List.filter id mask)) (select mask <$> cols)
  = select mask (rows_of (length mask) cols).
Proof.
  revert cols. induction mask as [|b mask IH]; intros cols Hlen.
  - done.
  - change (length (b :: mask)) with (S (length mask)).
    rewrite (rows_of_S (length mask)).
    assert (Forall (λ c, length c = length mask) (tail <$> cols)) as Htl.
    { apply Forall_fmap. eapply Forall_impl; [done|].
      intros [|x c]; simpl; [done|]. by intros [= ?]. }
    destruct b; simpl.
    + rewrite rows_of_S, <-(IH _ Htl). f_equal.
      * rewrite <-list_fmap_compose. apply Forall_fmap_ext_1.
        eapply Forall_impl; [done|]. by intros [|x c].
      * f_equal. rewrite <-!list_fmap_compose. apply Forall_fmap_ext_1.
        eapply Forall_impl; [done|]. by intros [|x c].
    + rewrite <-(IH _ Htl). f_equal.
      rewrite <-!list_fmap_compose. apply Forall_fmap_ext_1.
      apply Forall_true. intros [|x c]; simpl; [|done].
      by rewrite select_nil.
Qed.

Lemma dropna_columns_wf df : df_wf df → df_wf (dropna_columns df).
Proof.
  unfold df_wf, dropna_columns; simpl. intros Hwf.
  apply Forall_forall. intros col [Hin _]%list_elem_of_In%List.filter_In.
  rewrite Forall_forall in Hwf. by apply Hwf, list_elem_of_In.
Qed.

(** The rows that [dropna_rows] keeps are those with a cell that is not
    missing, in their order; the labels stay. *)
Lemma dropna_rows_rows df :
  df_wf df →
  rows (dropna_rows df)
  = List.filter (λ r, negb (all_missing r)) (rows df).
Proof.
  intros Hwf. rewrite <-select_fmap.
  set (mask := (λ r, negb (all_missing r)) <$> rows df).
  assert (length mask = nrows df) as Hmask.
  { unfold mask, rows. by rewrite !length_fmap, length_seq. }
  assert ((λ i, negb (forallb isna (row df i))) <$> seq 0 (nrows df)
          = mask) as Hkeep.
  { unfold mask, rows. by rewrite <-list_fmap_compose. }
  rewrite rows_rows_of. unfold dropna_rows. simpl. rewrite Hkeep.
  rewrite <-list_fmap_compose.
  rewrite (list_fmap_ext _ (select mask ∘ snd) (columns df)) by done.
  rewrite list_fmap_compose, rows_of_select.
  - by rewrite Hmask, <-rows_rows_of.
  - apply Forall_fmap. eapply Forall_impl; [apply Hwf|].
    intros col Hcol. simpl. congruence.
Qed.

Lemma dropna_rows_labels df :
  (columns (dropna_rows df)).*1 = (columns df).*1.
Proof.
  unfold dropna_rows; simpl. rewrite <-list_fmap_compose.
  by apply list_fmap_ext.
Qed.

(** The loop of [read_tables_from_html], from any [cleaned]. *)
Lemma clean_fold dfs cleaned :
  fold_left clean_step dfs cleaned
  = cleaned ++ List.filter has_cells (clean_table <$> dfs).
Proof.
  revert cleaned. induction dfs as [|df dfs IH]; intros cleaned; simpl.
  - by rewrite app_nil_r.
  - rewrite IH. unfold clean_step, has_cells, clean_table at 2.
    destruct (bool_decide _ || bool_decide _); simpl; [done|].
    by rewrite <-app_assoc.
Qed.
End cleaning.

Lemma no_cells_filter (dfs : list DataFrame) :
  Forall (λ df, nrows (clean_table df) = 0%nat
                ∨ ncols (clean_table df) = 0%nat) dfs →
  List.filter has_cells (clean_table <$> dfs) = [].
Proof.
  induction 1 as [|df dfs Hdf _ IH]; [done|].
  csimpl. unfold has_cells at 1.
  destruct Hdf as [Hdf|Hdf].
  - by rewrite (bool_decide_eq_true_2 _ Hdf).
  - by rewrite (bool_decide_eq_true_2 _ Hdf), orb_true_r.
Qed.

(** The table of the spec's example: its empty row and its empty column
    go, and a table of missing cells has no cells left. *)
Example clean_table_sparse :
  clean_table sparse
  = {| nrows := 2;
       columns := [ ("Span", [Str "2019-2024"; Str "2021-2021"]);
                    ("Mat", [Int 48; Int 2]) ] |}
  ∧ has_cells (clean_table blank) = false.
Proof. split; reflexivity. Qed.

(** Markup in which no table is found: [pandas.read_html] raises. *)
Lemma pd_read_html_no_tables (w : World) (html : string) :
  html_tables w html = Ok [] →
  pd_read_html w html = Raise (no_tables_error w).
Proof. intros Hnone. unfold pd_read_html. by rewrite Hnone. Qed.

Lemma pd_read_html_Ok (w : World) (html : string) (dfs : list DataFrame) :
  pd_read_html w html = Ok dfs → dfs ≠ [] ∧ html_tables w html = Ok dfs.
Proof.
  unfold pd_read_html. destruct (html_tables w html) as [[|df l]|e]; simpl.
  - done.
  - by intros [= <-].
  - done.
Qed.

Lemma read_tables_raise (w : World) (html e : string) :
  pd_read_html w (strip_doctype html) = Raise e →
  read_tables_from_html w html = Raise e.
Proof. intros Hread. unfold read_tables_from_html. by rewrite Hread. Qed.

(** C4. Markup in which no table is found makes [read_tables_from_html]
    raise instead of returning an empty list: [pandas.read_html] answers
    such markup with an exception, and the call stands in no [try].  The
    empty list comes back only from a page that has tables, every one of
    them without a cell after the missing columns and rows are dropped. *)
Theorem read_tables_from_html_no_tables (w : World) (html : string) :
  (html_tables w (strip_doctype html) = Ok [] →
   read_tables_from_html w html = Raise (no_tables_error w))
  ∧ (read_tables_from_html w html = Ok [] →
     ∃ df dfs,
       html_tables w (strip_doctype html) = Ok (df :: dfs)
       ∧ Forall (λ df, has_cells (clean_table df) = false) (df :: dfs)).
Proof.
  split.
  - intros Hnone. by apply read_tables_raise, pd_read_html_no_tables.
  - unfold read_tables_from_html.
    destruct (pd_read_html w (strip_doctype html)) as [raw|e] eqn:Hread;
      simpl; [|done].
    apply pd_read_html_Ok in Hread as [Hne Hraw].
    rewrite clean_fold. simpl. intros [= Hnil].
    destruct raw as [|df dfs]; [done|]. exists df, dfs. split; [done|].
    apply Forall_forall. intros df' Hin.
    destruct (has_cells (clean_table df')) eqn:Hcells; [|done].
    assert (clean_table df'
              ∈ List.filter has_cells (clean_table <$> df :: dfs)) as Hkept.
    { apply list_elem_of_In, List.filter_In. split; [|done].
      apply list_elem_of_In, list_elem_of_fmap. by exists df'. }
    rewrite Hnil in Hkept. by apply elem_of_nil in Hkept.
Qed.

Lemma read_tables_from_html_no_tables_witness :
  read_tables_from_html statsguru "<!DOCTYPE html><html>nothing</html>"
  = Raise "No tables found"
  ∧ ∃ df dfs,
      html_tables statsguru (strip_doctype "<html>blank</html>")
      = Ok (df :: dfs)
      ∧ Forall (λ df, has_cells (clean_table df) = false) (df :: dfs).
Proof.
  split.
  - apply (proj1 (read_tables_from_html_no_tables statsguru
                    "<!DOCTYPE html><html>nothing</html>")).
    reflexivity.
  - apply (proj2 (read_tables_from_html_no_tables statsguru
                    "<html>blank</html>")).
    reflexivity.
Defined.

(** X21. When [pandas.read_html] returns the tables [dfs] of the page,
    [read_tables_from_html] returns, in the order of [dfs], the tables that
    still have cells after this treatment: first the columns with nothing
    but missing cells go, the rows untouched; then, of what is left, the
    rows with nothing but missing cells go, the columns keeping their
    labels; a table with no row or no column left is dropped.  In
    particular it returns the empty list, and does not raise, when no
    table keeps a cell. *)
Theorem read_tables_from_html_cleans (w : World) (html : string)
    (dfs : list DataFrame) :
  pd_read_html w (strip_doctype html) = Ok dfs →
  Forall df_wf dfs →
  read_tables_from_html w html
  = Ok (List.filter has_cells (clean_table <$> dfs))
  ∧ (∀ df, df ∈ dfs →
       columns (dropna_columns df)
       = List.filter (λ col, negb (all_missing col.2)) (columns df)
       ∧ rows (dropna_columns df)
         = rows_of (nrows df) (columns (dropna_columns df)).*2
       ∧ (columns (clean_table df)).*1 = (columns (dropna_columns df)).*1
       ∧ rows (clean_table df)
         = List.filter (λ r, negb (all_missing r)) (rows (dropna_columns df))
       ∧ (has_cells (clean_table df) = true
          ↔ nrows (clean_table df) ≠ 0%nat
            ∧ ncols (clean_table df) ≠ 0%nat))
  ∧ (Forall (λ df, nrows (clean_table df) = 0%nat
                   ∨ ncols (clean_table df) = 0%nat) dfs →
     read_tables_from_html w html = Ok []).
Proof.
  intros Hread Hwf.
  assert (read_tables_from_html w html
          = Ok (List.filter has_cells (clean_table <$> dfs))) as Hres.
  { unfold read_tables_from_html. rewrite Hread. simpl.
    by rewrite clean_fold. }
  split; [done|]. split.
  - intros df Hdf. rewrite Forall_forall in Hwf.
    split; [done|]. split; [exact (rows_rows_of (dropna_columns df))|].
    split; [apply dropna_rows_labels|].
    split; [apply dropna_rows_rows, dropna_columns_wf, Hwf, Hdf|].
    unfold has_cells. rewrite negb_true_iff, orb_false_iff.
    by rewrite !bool_decide_eq_false.
  - intros Hnone. rewrite Hres. f_equal. by apply no_cells_filter.
Qed.

Lemma read_tables_from_html_cleans_witness :
  read_tables_from_html statsguru "<!doctype html><html>career</html>"
  = Ok (List.filter has_cells (clean_table <$> [sparse; blank])).
Proof.
  apply (read_tables_from_html_cleans statsguru
           "<!doctype html><html>career</html>" [sparse; blank]).
  - reflexivity.
  - repeat constructor.
Defined.

(** ** [main]: one spec after the other *)

Section orchestrator.
Context (w : World) (player_id : Z) (out_dir : string) (sleep_s : Q).

Local Abbreviation body := (main_body w player_id out_dir sleep_s).
Local Abbreviation loop := (main_loop w player_id out_dir sleep_s).
Local Abbreviation url_of := (make_url player_id).

Lemma requested_app tr1 tr2 :
  requested (tr1 ++ tr2) = requested tr1 ++ requested tr2.
Proof. apply omap_app. Qed.




(** The three outcomes the description of the run names. *)
Lemma main_body_http_error spec st r :
  session_get w (url_of spec) = Ok r →
  (0 <= sleep_s)%Q →
  status_code r ≠ 200 →
  body spec st
  = ({| all_tables := all_tables st;
        failures := failures st
                      ++ [(url_of spec, http_error r (url_of spec))];
        trace := trace st ++ [EvGet (url_of spec); EvSleep sleep_s] |},
     Ok ()).
Proof.
  intros Hget Hsleep Hst. unfold main_body, try_except.
  rewrite io_bind_eq, (fetch_html_response _ _ _ _ r Hget Hsleep).
  by rewrite bool_decide_eq_false_2.
Qed.

(** A negative delay: [time.sleep] raises after every response, and the
    step records that, whatever the status. *)
Lemma main_body_negative_sleep spec st r :
  session_get w (url_of spec) = Ok r →
  (sleep_s < 0)%Q →
  body spec st
  = ({| all_tables := all_tables st;
        failures := failures st ++ [(url_of spec, sleep_error)];
        trace := trace st ++ [EvGet (url_of spec)] |},
     Ok ()).
Proof.
  intros Hget Hsleep. unfold main_body, try_except.
  by rewrite io_bind_eq, (fetch_html_negative _ _ _ _ r Hget Hsleep).
Qed.

Lemma main_body_transport_error spec st e :
  session_get w (url_of spec) = Raise e →
  body spec st
  = ({| all_tables := all_tables st;
        failures := failures st ++ [(url_of spec, e)];
        trace := trace st ++ [EvGet (url_of spec)] |},
     Ok ()).
Proof.
  intros Hget. unfold main_body, try_except.
  by rewrite io_bind_eq, (fetch_html_transport _ _ _ _ e Hget).
Qed.


(** When [read_tables_from_html] raises, the step records the exception
    under the URL of the page. *)
Lemma main_body_read_error spec st r e :
  session_get w (url_of spec) = Ok r →
  (0 <= sleep_s)%Q →
  status_code r = 200 →
  read_tables_from_html w (text r) = Raise e →
  body spec st
  = ({| all_tables := all_tables st;
        failures := failures st ++ [(url_of spec, e)];
        trace := trace st ++ [EvGet (url_of spec); EvSleep sleep_s] |},
     Ok ()).
Proof.
  intros Hget Hsleep Hst Hread. unfold main_body, try_except.
  rewrite io_bind_eq, (fetch_html_response _ _ _ _ r Hget Hsleep).
  rewrite bool_decide_eq_true_2 by done.
  rewrite io_bind_eq. unfold lift at 1. by rewrite Hread.
Qed.


Lemma main_loop_cons spec specs st st' :
  body spec st = (st', Ok ()) →
  loop (spec :: specs) st = loop specs st'.
Proof.
  intros Hbody. unfold main_loop. simpl. by rewrite io_bind_eq, Hbody.
Qed.


End orchestrator.

(** The end-to-end scenario of the description: the dismissal summary of
    player 625371 is saved as one CSV file of three rows and eight columns,
    and nothing fails. *)
Example main_body_dismissal_summary :
  let st := (main_body statsguru 625371 "out" (Qmake 7 10) dismissal_spec
               init_state).1 in
  failures st = []
  ∧ (all_tables st).*1 = ["type=fielding__view=dismissal_summary__class=3"]
  ∧ (λ kd : string * list DataFrame, (λ df, (nrows df, ncols df)) <$> kd.2)
      <$> all_tables st = [[(3%nat, 8%nat)]]
  ∧ omap (λ e, match e with EvToCsv path _ => Some path | _ => None end)
         (trace st)
    = ["out/type_fielding__view_dismissal_summary__class_3__table1.csv"].
Proof. by vm_compute. Qed.

(** C2. A page that arrives with status 200 and in which no table is
    found is recorded as a failure: [pandas.read_html] raises, the [except]
    of the loop catches the exception, and the step appends the record
    [(url, message)] before it goes on, as it does for a 404.  The branch
    [if not dfs: continue], which would skip the page without a record, is
    not reached. *)
Theorem main_body_records_no_tables (w : World) (player_id : Z)
    (out_dir : string) (sleep_s : Q) (spec : QuerySpec) (st : RunState)
    (r : Response) :
  let url := make_url player_id spec in
  session_get w url = Ok r →
  (0 <= sleep_s)%Q →
  status_code r = 200 →
  html_tables w (strip_doctype (text r)) = Ok [] →
  main_body w player_id out_dir sleep_s spec st
  = ({| all_tables := all_tables st;
        failures := failures st ++ [(url, no_tables_error w)];
        trace := trace st ++ [EvGet url; EvSleep sleep_s] |},
     Ok ()).
Proof.
  intros url Hget Hsleep Hst Hnone.
  apply (main_body_read_error _ _ _ _ _ _ r); [done..|].
  by apply read_tables_raise, pd_read_html_no_tables.
Qed.

Lemma main_body_records_no_tables_witness :
  let spec := spec_of "batting" 1 "innings" in
  failures (main_body statsguru 625371 "out" (Qmake 7 10) spec
              init_state).1
  = [(make_url 625371 spec, "No tables found")].
Proof.
  intros spec.
  rewrite (main_body_records_no_tables statsguru 625371 "out" (Qmake 7 10)
             spec init_state
             {| status_code := 200; text := "<html>nothing</html>" |}).
  - reflexivity.
  - reflexivity.
  - by vm_compute.
  - reflexivity.
  - reflexivity.
Defined.



(** ** More on [safe_filename] and the names built with it *)

Lemma filename_char_not_space c : filename_char c = true → isspace c = false.
Proof. by destruct c as [[] [] [] [] [] [] [] []]. Qed.

Lemma int_char_filename_char c : int_char c = true → filename_char c = true.
Proof. by destruct c as [[] [] [] [] [] [] [] []]. Qed.

Lemma chars_app s t : chars (s +:+ t) = chars s ++ chars t.
Proof.
  induction s as [|a s IH]; [done|]. rewrite str_app_cons. simpl.
  by rewrite IH.
Qed.

Lemma lstrip_safe s :
  Forall (λ c, filename_char c = true) (chars s) → lstrip s = s.
Proof.
  destruct s as [|a s]; [done|]. simpl. intros [Ha _]%Forall_cons.
  by rewrite (filename_char_not_space a Ha).
Qed.

Lemma rstrip_safe s :
  Forall (λ c, filename_char c = true) (chars s) → rstrip s = s.
Proof.
  induction s as [|a s IH]; [done|]. simpl. intros [Ha Hs]%Forall_cons.
  rewrite (IH Hs), (filename_char_not_space a Ha). by destruct s.
Qed.

Lemma sub_unsafe_runs_safe b s :
  Forall (λ c, filename_char c = true) (chars s) → sub_unsafe_runs b s = s.
Proof.
  revert b. induction s as [|a s IH]; intros b; [done|]. simpl.
  intros [Ha Hs]%Forall_cons. by rewrite Ha, (IH false Hs).
Qed.

(** X1. [safe_filename] leaves a name alone that is within its alphabet and
    its length, and so applying it twice is applying it once. *)
Theorem safe_filename_fixpoint (s : string) :
  (Forall (λ c, filename_char c = true) (chars s) →
   (String.length s ≤ 180)%nat →
   safe_filename s = s)
  ∧ safe_filename (safe_filename s) = safe_filename s.
Proof.
  assert (∀ t, Forall (λ c, filename_char c = true) (chars t) →
               (String.length t ≤ 180)%nat → safe_filename t = t) as Hfix.
  { intros t Ht Hlen. unfold safe_filename, strip.
    rewrite (lstrip_safe t Ht), (rstrip_safe t Ht),
      (sub_unsafe_runs_safe false t Ht).
    by rewrite (proj2 (Nat.ltb_ge _ _) Hlen). }
  split; [apply Hfix|].
  apply Hfix; [apply safe_filename_chars | apply safe_filename_length].
Qed.

Lemma safe_filename_fixpoint_witness :
  safe_filename "type_fielding__view_dismissal_summary__class_3"
  = "type_fielding__view_dismissal_summary__class_3".
Proof.
  apply (proj1 (safe_filename_fixpoint
                  "type_fielding__view_dismissal_summary__class_3")).
  - repeat constructor.
  - simpl. lia.
Defined.

Lemma lstrip_app a c t :
  isspace c = false → lstrip (a +:+ String c t) = lstrip a +:+ String c t.
Proof.
  intros Hc. induction a as [|x a IH].
  - simpl. by rewrite Hc.
  - rewrite str_app_cons. simpl. by destruct (isspace x).
Qed.

Lemma rstrip_app a t : rstrip t = t → t ≠ "" → rstrip (a +:+ t) = a +:+ t.
Proof.
  intros Ht Hne. induction a as [|x a IH]; [done|].
  rewrite str_app_cons. simpl. rewrite IH.
  destruct (a +:+ t) eqn:Hat; [|done].
  destruct a; [done|discriminate].
Qed.

Lemma sub_unsafe_runs_app b a c t :
  filename_char c = true →
  sub_unsafe_runs b (a +:+ String c t)
  = sub_unsafe_runs b a +:+ sub_unsafe_runs false (String c t).
Proof.
  intros Hc. revert b. induction a as [|x a IH]; intros b.
  - simpl. by rewrite Hc.
  - rewrite str_app_cons. simpl.
    destruct (filename_char x); [by rewrite IH|].
    destruct b; by rewrite IH.
Qed.

Lemma str_take_app n a t :
  (n ≤ String.length a)%nat → take n (a +:+ t) = take n a.
Proof.
  revert a. induction n as [|n IH]; intros [|x a]; simpl; try done; try lia.
  intros ?. rewrite ?str_app_cons. simpl. f_equal. apply IH. lia.
Qed.

Lemma csv_suffix_chars i :
  Forall (λ c, filename_char c = true) (chars (csv_suffix i)).
Proof.
  unfold csv_suffix. rewrite !chars_app. repeat apply Forall_app_2.
  - repeat constructor.
  - eapply Forall_impl; [apply str_of_int_chars|].
    apply int_char_filename_char.
  - repeat constructor.
Qed.

(** The name of a CSV file before the cut at 180. *)
Lemma csv_name_eq base_name i :
  csv_name base_name i
  = (if (180 <? String.length (sanitized_base base_name +:+ csv_suffix i))%nat
     then take 180 (sanitized_base base_name +:+ csv_suffix i)
     else sanitized_base base_name +:+ csv_suffix i).
Proof.
  assert (sub_unsafe_runs false (strip (base_name +:+ csv_suffix i))
          = sanitized_base base_name +:+ csv_suffix i) as Hsub.
  { unfold strip, csv_suffix.
    change ("__table" +:+ ?s) with (String "_" ("_table" +:+ s)).
    rewrite lstrip_app by done. rewrite rstrip_app.
    - rewrite sub_unsafe_runs_app by done. unfold sanitized_base. f_equal.
      apply sub_unsafe_runs_safe, (csv_suffix_chars i).
    - apply rstrip_safe, (csv_suffix_chars i).
    - done. }
  unfold csv_name, safe_filename.
  change (base_name +:+ "__table" +:+ str_of_int i +:+ ".csv")
    with (base_name +:+ csv_suffix i).
  by rewrite Hsub.
Qed.

(** X2. While the sanitized base name and the suffix fit into 180
    characters, the CSV name is the sanitized base name followed by
    [__table{i}.csv], and two ordinals that both fit give different
    names. *)
Theorem csv_name_keeps_suffix (base_name : string) (i : Z) :
  (String.length (sanitized_base base_name)
   + String.length (csv_suffix i) ≤ 180)%nat →
  csv_name base_name i = sanitized_base base_name +:+ csv_suffix i
  ∧ ∀ j, (String.length (sanitized_base base_name)
          + String.length (csv_suffix j) ≤ 180)%nat →
         csv_name base_name i = csv_name base_name j → i = j.
Proof.
  assert (∀ k, (String.length (sanitized_base base_name)
                + String.length (csv_suffix k) ≤ 180)%nat →
               csv_name base_name k
               = sanitized_base base_name +:+ csv_suffix k) as Hshort.
  { intros k Hk. rewrite csv_name_eq.
    rewrite (proj2 (Nat.ltb_ge _ _)); [done|]. by rewrite str_length_app. }
  intros Hi. split; [by apply Hshort|].
  intros j Hj. rewrite (Hshort i Hi), (Hshort j Hj).
  intros Heq%(inj (String.app _)). unfold csv_suffix in Heq.
  apply (inj (String.app _)) in Heq.
  assert (before "." (str_of_int i +:+ ".csv")
          = before "." (str_of_int j +:+ ".csv")) as Hb by by rewrite Heq.
  rewrite !before_app in Hb by by apply has_char_not_int.
  by apply (inj pretty).
Qed.

Lemma csv_name_keeps_suffix_witness :
  csv_name (page_key dismissal_spec) 1
  = sanitized_base (page_key dismissal_spec) +:+ csv_suffix 1.
Proof.
  apply (csv_name_keeps_suffix (page_key dismissal_spec) 1).
  vm_compute. lia.
Defined.

(** X3. When the sanitized base name alone has 180 characters or more,
    the cut at 180 removes the whole suffix: every table of the page gets
    the same file name, without [.csv]. *)
Theorem csv_name_long_base (base_name : string) (i : Z) :
  (180 ≤ String.length (sanitized_base base_name))%nat →
  csv_name base_name i = take 180 (sanitized_base base_name)
  ∧ ∀ j, csv_name base_name i = csv_name base_name j.
Proof.
  assert (∀ k, (180 ≤ String.length (sanitized_base base_name))%nat →
               csv_name base_name k = take 180 (sanitized_base base_name))
    as Hlong.
  { intros k Hk. rewrite csv_name_eq.
    assert (0 < String.length (csv_suffix k))%nat.
    { unfold csv_suffix. rewrite str_length_app. simpl. lia. }
    rewrite (proj2 (Nat.ltb_lt _ _)) by (rewrite str_length_app; lia).
    by apply str_take_app. }
  intros Hlen. split; [by apply Hlong|].
  intros j. by rewrite !Hlong.
Qed.

Lemma csv_name_long_base_witness :
  csv_name (str_repeat "ab" 90) 1 = csv_name (str_repeat "ab" 90) 2.
Proof.
  apply (csv_name_long_base (str_repeat "ab" 90) 1).
  vm_compute. lia.
Defined.

(** X4. A sheet name holds only characters of [[A-Za-z0-9._-]]. *)
Theorem sheet_name_chars (key : string) (n : nat) (i : Z) :
  Forall (λ c, filename_char c = true) (chars (sheet_name key n i)).
Proof.
  unfold sheet_name. apply chars_take.
  assert (Forall (λ c, filename_char c = true)
                 (chars (take 25 (safe_filename key)))) as Hkey
    by apply chars_take, safe_filename_chars.
  case_bool_decide; [|done].
  rewrite !chars_app. repeat apply Forall_app_2; [done|by repeat constructor|].
  eapply Forall_impl; [apply str_of_int_chars|].
  apply int_char_filename_char.
Qed.

(** ** More on the workbook and on the CSV files *)

Lemma sheets_of_to_excel_tables excel_path (name : Z * DataFrame → string)
    (l : list (Z * DataFrame)) :
  (sheets_of ((λ idf, EvToExcel excel_path (name idf) idf.2) <$> l)).*2
  = l.*2.
Proof.
  induction l as [|x l IH]; [done|].
  rewrite !fmap_cons. rewrite <-IH. done.
Qed.

Lemma enumerate1_snd {A} (l : list A) : (enumerate1 l).*2 = l.
Proof.
  unfold enumerate1. rewrite fmap_imap.
  rewrite (imap_ext _ (λ _ x, x)) by done.
  induction l as [|x l IH]; [done|]. simpl. f_equal.
  by rewrite (imap_ext _ (λ _ x, x)).
Qed.

Lemma sheets_of_excel_events_tables excel_path tables :
  (sheets_of (excel_events excel_path tables)).*2 = mjoin tables.*2.
Proof.
  induction tables as [|kd tables IH]; [done|].
  change (excel_events excel_path (kd :: tables))
    with (((λ idf : Z * DataFrame,
              EvToExcel excel_path (sheet_name kd.1 (length kd.2) idf.1)
                        idf.2) <$> enumerate1 kd.2)
            ++ excel_events excel_path tables).
  rewrite sheets_of_app, fmap_app, IH.
  rewrite (sheets_of_to_excel_tables excel_path
             (λ idf, sheet_name kd.1 (length kd.2) idf.1)).
  by rewrite enumerate1_snd.
Qed.

(** X6. For the specs of [build_default_specs], the sheet name does not
    depend on the class: two of them with the same type and view get the
    same sheet names. *)
Theorem default_sheet_names_ignore_class (sp1 sp2 : QuerySpec) (n : nat)
    (i : Z) :
  sp1 ∈ build_default_specs →
  sp2 ∈ build_default_specs →
  type sp1 = type sp2 →
  view sp1 = view sp2 →
  sheet_name (page_key sp1) n i = sheet_name (page_key sp2) n i.
Proof.
  intros H1 H2 Ht Hv.
  assert (forallb (λ sp,
            bool_decide (take 25 (safe_filename (page_key sp))
                         = take 25 (safe_filename
                                      (page_key (with_cls None sp)))))
            build_default_specs = true) as Hall
    by by vm_compute.
  rewrite forallb_forall in Hall.
  apply list_elem_of_In, Hall, bool_decide_eq_true in H1.
  apply list_elem_of_In, Hall, bool_decide_eq_true in H2.
  unfold sheet_name. rewrite H1, H2.
  unfold page_key, with_cls. simpl. by rewrite Ht, Hv.
Qed.

Lemma default_sheet_names_ignore_class_witness :
  sheet_name (page_key (spec_of "fielding" 1 "dismissal_summary")) 1 1
  = sheet_name (page_key (spec_of "fielding" 6 "dismissal_summary")) 1 1.
Proof.
  apply default_sheet_names_ignore_class; try reflexivity.
  - apply (bool_decide_unpack _). by vm_compute.
  - apply (bool_decide_unpack _). by vm_compute.
Defined.

Section save.
Context (w : World) (out_dir base_name : string).

Local Abbreviation ev := (λ idf : Z * DataFrame,
  EvToCsv (csv_path out_dir base_name idf.1) idf.2).

Lemma save_table_ok saved idf st :
  df_to_csv w (csv_path out_dir base_name idf.1) idf.2 = Ok () →
  save_table w out_dir base_name saved idf st
  = (push st [ev idf], Ok (saved ++ [csv_path out_dir base_name idf.1])).
Proof.
  intros Hcsv. unfold save_table. rewrite emit_bind, lift_bind.
  fold (csv_path out_dir base_name idf.1). by rewrite Hcsv.
Qed.

Lemma save_table_fail saved idf st e :
  df_to_csv w (csv_path out_dir base_name idf.1) idf.2 = Raise e →
  save_table w out_dir base_name saved idf st = (push st [ev idf], Raise e).
Proof.
  intros Hcsv. unfold save_table. rewrite emit_bind, lift_bind.
  fold (csv_path out_dir base_name idf.1). by rewrite Hcsv.
Qed.

Lemma fold_io_cons {A B} (f : B → A → io B) acc x l st :
  fold_io f acc (x :: l) st
  = match f acc x st with
    | (st', Ok acc') => fold_io f acc' l st'
    | (st', Raise e) => (st', Raise e)
    end.
Proof. done. Qed.

Lemma save_loop_ok idfs saved st :
  Forall (λ idf, df_to_csv w (csv_path out_dir base_name idf.1) idf.2
                 = Ok ()) idfs →
  fold_io (save_table w out_dir base_name) saved idfs st
  = (push st (ev <$> idfs),
     Ok (saved ++ ((λ idf, csv_path out_dir base_name idf.1) <$> idfs))).
Proof.
  intros Hok. revert saved st.
  induction Hok as [|idf idfs Hidf _ IH]; intros saved st.
  - simpl. by rewrite push_nil, app_nil_r.
  - rewrite fold_io_cons, (save_table_ok _ _ _ Hidf), IH, push_push.
    by rewrite <-app_assoc.
Qed.

Lemma save_loop_fail pre idf post saved st e :
  Forall (λ idf, df_to_csv w (csv_path out_dir base_name idf.1) idf.2
                 = Ok ()) pre →
  df_to_csv w (csv_path out_dir base_name idf.1) idf.2 = Raise e →
  fold_io (save_table w out_dir base_name) saved (pre ++ idf :: post) st
  = (push st (ev <$> pre ++ [idf]), Raise e).
Proof.
  intros Hok Hfail. revert saved st.
  induction Hok as [|x pre Hx _ IH]; intros saved st.
  - by rewrite app_nil_l, fold_io_cons, (save_table_fail _ _ _ _ Hfail).
  - rewrite <-app_comm_cons, fold_io_cons, (save_table_ok _ _ _ Hx), IH.
    by rewrite push_push.
Qed.
End save.

(** X7. When the directory can be made and every table can be written,
    [save_tables] makes the directory, writes one CSV file per table, in
    the order of the tables and under the name of its ordinal, and returns
    these paths. *)
Theorem save_tables_ok (w : World) (tables : list DataFrame)
    (out_dir base_name : string) (st : RunState) :
  os_makedirs w out_dir = Ok () →
  Forall (λ idf : Z * DataFrame,
            df_to_csv w (csv_path out_dir base_name idf.1) idf.2 = Ok ())
         (enumerate1 tables) →
  save_tables w tables out_dir base_name st
  = (push st (EvMakedirs out_dir
                :: ((λ idf : Z * DataFrame,
                       EvToCsv (csv_path out_dir base_name idf.1) idf.2)
                      <$> enumerate1 tables)),
     Ok ((λ idf : Z * DataFrame, csv_path out_dir base_name idf.1)
           <$> enumerate1 tables)).
Proof.
  intros Hdir Hcsv. unfold save_tables.
  rewrite emit_bind, lift_bind, Hdir.
  by rewrite (save_loop_ok w out_dir base_name _ _ _ Hcsv), push_push.
Qed.

Lemma save_tables_ok_witness :
  (save_tables statsguru [catches; sparse] "out" "page" init_state).2
  = Ok ["out/page__table1.csv"; "out/page__table2.csv"].
Proof.
  rewrite (save_tables_ok statsguru [catches; sparse] "out" "page" init_state).
  - reflexivity.
  - reflexivity.
  - repeat constructor.
Defined.

(** X8. [save_tables] stops at the first error: when the directory cannot
    be made, nothing is written; when a table cannot be written, the
    tables before it are written, those after it are not even tried, and
    the paths collected so far are lost with the exception. *)
Theorem save_tables_stops (w : World) (out_dir base_name : string)
    (st : RunState) (e : string) :
  (∀ tables,
     os_makedirs w out_dir = Raise e →
     save_tables w tables out_dir base_name st
     = (push st [EvMakedirs out_dir], Raise e))
  ∧ (∀ (pre : list DataFrame) (df : DataFrame) (post : list DataFrame),
       os_makedirs w out_dir = Ok () →
       Forall (λ idf : Z * DataFrame,
                 df_to_csv w (csv_path out_dir base_name idf.1) idf.2
                 = Ok ())
              (enumerate1 pre) →
       df_to_csv w (csv_path out_dir base_name (Z.of_nat (length pre) + 1))
                 df = Raise e →
       save_tables w (pre ++ df :: post) out_dir base_name st
       = (push st (EvMakedirs out_dir
                     :: ((λ idf : Z * DataFrame,
                            EvToCsv (csv_path out_dir base_name idf.1) idf.2)
                           <$> enumerate1 (pre ++ [df]))),
          Raise e)).
Proof.
  split.
  - intros tables Hdir. unfold save_tables.
    by rewrite emit_bind, lift_bind, Hdir.
  - intros pre df post Hdir Hpre Hdf. unfold save_tables.
    rewrite emit_bind, lift_bind, Hdir.
    unfold enumerate1 in *. rewrite !imap_app. simpl.
    rewrite Nat.add_0_r.
    rewrite (save_loop_fail w out_dir base_name _
               (Z.of_nat (length pre) + 1, df) _ _ _ e Hpre Hdf).
    by rewrite push_push.
Qed.

Lemma save_tables_stops_witness :
  save_tables readonly_disk [catches; sparse] "out" "page" init_state
  = (push init_state [EvMakedirs "out"], Raise "Permission denied")
  ∧ save_tables full_disk [catches; sparse; blank] "out" "page" init_state
    = (push init_state
         [EvMakedirs "out"; EvToCsv "out/page__table1.csv" catches;
          EvToCsv "out/page__table2.csv" sparse],
       Raise "No space left on device").
Proof.
  split.
  - by apply (proj1 (save_tables_stops readonly_disk "out" "page"
                       init_state "Permission denied")).
  - apply (proj2 (save_tables_stops full_disk "out" "page" init_state
                    "No space left on device") [catches] sparse [blank]).
    + reflexivity.
    + repeat constructor.
    + reflexivity.
Defined.

(** ** More on the tables: what the extractor hands on *)

Section cleaned.
Implicit Types (df : DataFrame) (mask : list bool).

Lemma length_select {A} mask (l : list A) :
  length l = length mask →
  length (select mask l) = length (List.filter id mask).
Proof.
  revert l. induction mask as [|b mask IH]; intros [|x l]; simpl; try done.
  intros [= Hlen]. destruct b; simpl; by rewrite IH.
Qed.

Lemma select_keeps {A} mask (l : list A) (i : nat) x :
  mask !! i = Some true → l !! i = Some x → x ∈ select mask l.
Proof.
  revert l i. induction mask as [|b mask IH]; intros [|y l] [|i]; try done.
  - simpl. intros [= ->] [= ->]. left.
  - simpl. intros Hm Hl. destruct b; [right|]; by eapply IH.
Qed.

Lemma forallb_false_lookup {A} (p : A → bool) (l : list A) :
  forallb p l = false → ∃ (i : nat) x, l !! i = Some x ∧ p x = false.
Proof.
  induction l as [|y l IH]; [done|]. simpl.
  destruct (p y) eqn:Hy; simpl.
  - intros (i & x & ? & ?)%IH. by exists (S i), x.
  - intros _. by exists 0%nat, y.
Qed.

Lemma forallb_false_elem {A} (p : A → bool) (l : list A) x :
  x ∈ l → p x = false → forallb p l = false.
Proof.
  intros Hx Hp. destruct (forallb p l) eqn:Hall; [|done].
  rewrite forallb_forall in Hall. apply list_elem_of_In, Hall in Hx.
  congruence.
Qed.

Lemma dropna_rows_wf df : df_wf df → df_wf (dropna_rows df).
Proof.
  unfold df_wf, dropna_rows. simpl. intros Hwf.
  apply Forall_fmap. eapply Forall_impl; [done|]. intros col Hcol. simpl.
  apply length_select. by rewrite length_fmap, length_seq.
Qed.

(** A column with a cell keeps a cell when the empty rows go: the row of
    that cell is not empty. *)
Lemma dropna_rows_columns df :
  df_wf df →
  Forall (λ col, all_missing col.2 = false) (columns df) →
  Forall (λ col, all_missing col.2 = false) (columns (dropna_rows df)).
Proof.
  intros Hwf Hcols. unfold dropna_rows. simpl. apply Forall_fmap.
  unfold df_wf in Hwf. rewrite Forall_forall in Hwf.
  apply Forall_forall. intros col Hin.
  rewrite Forall_forall in Hcols. pose proof (Hcols col Hin) as Hcol.
  apply forallb_false_lookup in Hcol as (i & x & Hi & Hx). simpl.
  eapply forallb_false_elem; [|done].
  eapply select_keeps; [|done].
  assert (i < nrows df)%nat as Hlt.
  { rewrite <-(Hwf col Hin). by eapply lookup_lt_Some. }
  rewrite list_lookup_fmap, lookup_seq_lt by done. simpl. do 2 f_equal.
  apply negb_true_iff. eapply forallb_false_elem; [|done].
  unfold row. apply list_elem_of_fmap. exists col. split; [|done].
  symmetry. by apply nth_lookup_Some.
Qed.

Lemma dropna_columns_columns df :
  Forall (λ col, all_missing col.2 = false) (columns (dropna_columns df)).
Proof.
  unfold dropna_columns. simpl. apply Forall_forall. intros col Hin.
  apply list_elem_of_In, List.filter_In in Hin as [_ Hcol].
  by apply negb_true_iff in Hcol.
Qed.
End cleaned.

(** X9. When [pandas.read_html] returns rectangular tables, every table
    that [read_tables_from_html] returns is rectangular, has at least one
    row and one column, and has no row and no column left with nothing but
    missing cells. *)
Theorem read_tables_from_html_invariant (w : World) (html : string)
    (raw : list DataFrame) :
  pd_read_html w (strip_doctype html) = Ok raw →
  Forall df_wf raw →
  ∃ cleaned,
    read_tables_from_html w html = Ok cleaned
    ∧ Forall (λ df,
                df_wf df
                ∧ (1 ≤ nrows df)%nat ∧ (1 ≤ ncols df)%nat
                ∧ Forall (λ r, all_missing r = false) (rows df)
                ∧ Forall (λ col, all_missing col.2 = false) (columns df))
             cleaned.
Proof.
  intros Hread Hwf. eexists. split.
  { unfold read_tables_from_html. rewrite Hread. simpl.
    by rewrite clean_fold. }
  apply Forall_forall. intros df Hin.
  apply list_elem_of_In, List.filter_In in Hin as [Hin Hcells].
  apply list_elem_of_In, list_elem_of_fmap in Hin as (df0 & -> & Hin).
  rewrite Forall_forall in Hwf. pose proof (Hwf df0 Hin) as Hdf0.
  unfold has_cells in Hcells.
  apply negb_true_iff, orb_false_iff in Hcells as [Hr Hc].
  apply bool_decide_eq_false in Hr, Hc.
  split; [by apply dropna_rows_wf, dropna_columns_wf|].
  split; [lia|]. split; [lia|]. split.
  - unfold clean_table.
    rewrite dropna_rows_rows by by apply dropna_columns_wf.
    apply Forall_forall. intros r Hrow.
    apply list_elem_of_In, List.filter_In in Hrow as [_ Hrow].
    by apply negb_true_iff in Hrow.
  - apply dropna_rows_columns; [by apply dropna_columns_wf|].
    apply dropna_columns_columns.
Qed.

Lemma read_tables_from_html_invariant_witness :
  ∃ cleaned,
    read_tables_from_html statsguru "<html>career</html>" = Ok cleaned
    ∧ Forall (λ df,
                df_wf df
                ∧ (1 ≤ nrows df)%nat ∧ (1 ≤ ncols df)%nat
                ∧ Forall (λ r, all_missing r = false) (rows df)
                ∧ Forall (λ col, all_missing col.2 = false) (columns df))
             cleaned.
Proof.
  apply (read_tables_from_html_invariant statsguru "<html>career</html>"
           [sparse; blank]).
  - reflexivity.
  - repeat constructor.
Defined.

(** ** More on [normalize_tables]: a label that is taken *)

Section clash.
Implicit Types (df : DataFrame) (meta : list (string * string)).

Lemma insert_meta_clash meta df k :
  k ∈ meta.*1 → k ∈ (columns df).*1 →
  ∃ e, foldM (λ df2 kv, df_insert0 kv.1 (Str kv.2) df2) df meta = Raise e.
Proof.
  revert df. induction meta as [|kv meta IH]; intros df; simpl.
  - by intros ?%elem_of_nil.
  - intros Hk Hdf.
    destruct (df_insert0 kv.1 (Str kv.2) df) as [df1|e] eqn:Hins;
      simpl; [|by eexists].
    pose proof Hins as [_ Hc]%df_insert0_Ok.
    apply elem_of_cons in Hk as [->|Hk].
    + unfold df_insert0 in Hins.
      by rewrite bool_decide_eq_true_2 in Hins.
    + apply IH; [done|]. rewrite Hc. simpl. by right.
Qed.

Lemma normalize_table_clash meta i df k :
  k ∈ "_table_index" :: meta.*1 → k ∈ (columns df).*1 →
  ∃ e, normalize_table meta i df = Raise e.
Proof.
  intros Hk Hdf. unfold normalize_table.
  destruct (foldM _ df meta) as [df1|e] eqn:Hmeta; simpl; [|by eexists].
  apply elem_of_cons in Hk as [->|Hk].
  - apply insert_meta_Ok in Hmeta as [_ Hc]. unfold df_insert0.
    rewrite bool_decide_eq_true_2; [by eexists|].
    rewrite Hc, fmap_app. apply elem_of_app. by right.
  - destruct (insert_meta_clash meta df k Hk Hdf) as [e He]. congruence.
Qed.

Lemma normalize_loop_clash meta (idfs : list (Z * DataFrame)) out idf k :
  idf ∈ idfs →
  k ∈ "_table_index" :: meta.*1 → k ∈ (columns idf.2).*1 →
  ∃ e, foldM (λ out idf, df2 ← normalize_table meta idf.1 idf.2;
                         Ok (out ++ [df2])) out idfs = Raise e.
Proof.
  intros Hin Hk Hdf. revert out.
  induction idfs as [|x idfs IH]; intros out; [by apply elem_of_nil in Hin|].
  simpl. destruct (normalize_table meta x.1 x.2) as [df2|e] eqn:Hx;
    simpl; [|by eexists].
  apply elem_of_cons in Hin as [->|Hin]; [|by apply IH].
  destruct (normalize_table_clash meta x.1 x.2 k Hk Hdf) as [e He].
  congruence.
Qed.
End clash.

(** X10. When one of the tables already has a column named like a key of
    the metadata or [_table_index], [normalize_tables] raises and returns
    no table at all, not even those before the offending one. *)
Theorem normalize_tables_label_clash (dfs : list DataFrame)
    (meta : list (string * string)) (df : DataFrame) (k : string) :
  df ∈ dfs →
  k ∈ "_table_index" :: meta.*1 →
  k ∈ (columns df).*1 →
  ∃ e, normalize_tables dfs meta = Raise e.
Proof.
  intros Hin Hk Hdf. unfold normalize_tables.
  apply list_elem_of_lookup in Hin as [i Hi].
  apply (normalize_loop_clash meta _ [] (Z.of_nat i + 1, df) k); [|done..].
  unfold enumerate1. apply list_elem_of_lookup. exists i.
  by rewrite list_lookup_imap, Hi.
Qed.

Lemma normalize_tables_label_clash_witness :
  ∃ e,
    normalize_tables
      [catches; {| nrows := 1; columns := [("_url", [Str "x"])] |}]
      (page_meta "u" "t" dismissal_spec) = Raise e.
Proof.
  apply (normalize_tables_label_clash _ _
           {| nrows := 1; columns := [("_url", [Str "x"])] |} "_url").
  - apply (bool_decide_unpack _). by vm_compute.
  - apply (bool_decide_unpack _). by vm_compute.
  - apply (bool_decide_unpack _). by vm_compute.
Defined.

(** ** More on [make_url] and on the page key *)

Lemma make_url_player_inj p1 p2 q1 q2 :
  BASE p1 +:+ "?" +:+ q1 = BASE p2 +:+ "?" +:+ q2 → p1 = p2.
Proof.
  unfold BASE. rewrite !str_app_assoc.
  intros Heq%(inj (String.app _)).
  assert (before "." (str_of_int p1 +:+ ".html" +:+ "?" +:+ q1)
          = before "." (str_of_int p2 +:+ ".html" +:+ "?" +:+ q2)) as Hb
    by by rewrite Heq.
  change (".html" +:+ ?s) with (String "." ("html" +:+ s)) in Hb.
  rewrite !before_app in Hb by by apply has_char_not_int.
  by apply (inj pretty).
Qed.

Lemma query_string_make_url player_id spec :
  query_string (make_url player_id spec) = make_url_qp spec.
Proof.
  unfold query_string, make_url. apply after_app, BASE_no_question_mark.
Qed.

(** X11. The URLs of two players never coincide, whatever the specs. *)
Theorem make_url_separates_players (p1 p2 : Z) (spec1 spec2 : QuerySpec) :
  make_url p1 spec1 = make_url p2 spec2 → p1 = p2.
Proof. unfold make_url. apply make_url_player_inj. Qed.

Lemma make_url_separates_players_witness :
  625371 = 625371.
Proof.
  apply (make_url_separates_players 625371 625371 dismissal_spec
           dismissal_spec).
  reflexivity.
Defined.

(** X12. Whoever the player, the default specs give pairwise different
    URLs and pairwise different page keys: the run requests no page twice
    and no page takes the place of another in [all_tables]. *)
Theorem default_specs_distinct (player_id : Z) :
  NoDup (make_url player_id <$> build_default_specs)
  ∧ NoDup (page_key <$> build_default_specs).
Proof.
  split.
  - assert (NoDup (make_url_qp <$> build_default_specs)) as Hqp
      by (apply (bool_decide_unpack _); by vm_compute).
    rewrite (list_fmap_ext (make_url player_id)
               (String.app (BASE player_id +:+ "?") ∘ make_url_qp)).
    + rewrite list_fmap_compose. by apply (NoDup_fmap_2 _).
    + intros _ sp _. unfold make_url. simpl. by rewrite str_app_assoc.
  - apply (bool_decide_unpack _). by vm_compute.
Qed.

(** X13. The page key tells neither class 0 from no class, nor an empty
    view from no view, and it ignores the extra parameters; the URL does
    tell class 0 from no class.  So two pages of one run can share a page
    key. *)
Theorem page_key_conflates (player_id : Z) (spec : QuerySpec) :
  page_key (with_cls (Some 0) spec) = page_key (with_cls None spec)
  ∧ page_key (with_view (Some "") spec) = page_key (with_view None spec)
  ∧ page_key (without_extra spec) = page_key spec
  ∧ make_url player_id (with_cls (Some 0) spec)
    ≠ make_url player_id (with_cls None spec).
Proof.
  repeat (split; [done|]).
  intros Heq.
  assert (first_param (query_string
                         (make_url player_id (with_cls (Some 0) spec)))
          = first_param (query_string
                           (make_url player_id (with_cls None spec))))
    as Hfirst by by rewrite Heq.
  rewrite !query_string_make_url in Hfirst. unfold make_url_qp in Hfirst.
  rewrite !make_url_params_emitted in Hfirst.
  rewrite (first_param_class _ 0), first_param_template in Hfirst by done.
  discriminate.
Qed.

(** ** More on [read_tables_from_html]: the declaration in front *)







(** ** The report on the failures *)






(** The failures that [fetch_html] itself raises have a message: the
    report cannot stumble over them. *)
Lemma http_error_not_empty r url : http_error r url ≠ "".
Proof. done. Qed.

(** ** More on the run: what it keeps and what it records *)

Section dict.
Context {K V : Type} `{EqDecision K}.
Implicit Types (k : K) (v : V) (d : list (K * V)).

Lemma dict_set_keys k v d :
  (dict_set k v d).*1 = if decide (k ∈ d.*1) then d.*1 else d.*1 ++ [k].
Proof.
  induction d as [|[k' v'] d IH]; [done|]. csimpl.
  destruct (decide (k = k')) as [->|Hne]; csimpl.
  - by rewrite decide_True by left.
  - rewrite IH. destruct (decide (k ∈ d.*1)) as [Hin|Hin].
    + by rewrite decide_True by by right.
    + rewrite decide_False; [done|].
      rewrite not_elem_of_cons. done.
Qed.

Lemma dict_set_elem_of k v d k' :
  k' ∈ (dict_set k v d).*1 ↔ k' = k ∨ k' ∈ d.*1.
Proof.
  rewrite dict_set_keys. case_decide.
  - split; [by right|]. by intros [->|].
  - rewrite elem_of_app, list_elem_of_singleton. tauto.
Qed.

Lemma dict_set_NoDup k v d : NoDup d.*1 → NoDup (dict_set k v d).*1.
Proof.
  intros Hd. rewrite dict_set_keys. case_decide; [done|].
  apply NoDup_app. split; [done|]. split; [|apply NoDup_singleton].
  intros k' Hk' ->%list_elem_of_singleton. done.
Qed.

Lemma dict_set_values (P : V → Prop) k v d :
  P v → Forall P d.*2 → Forall P (dict_set k v d).*2.
Proof.
  intros Hv. induction d as [|[k' v'] d IH]; csimpl.
  - by repeat constructor.
  - intros [Hv' Hd]%Forall_cons. case_decide; csimpl; constructor; auto.
Qed.

Lemma dict_get_set k v d k' :
  dict_get k' (dict_set k v d)
  = if decide (k' = k) then Some v else dict_get k' d.
Proof.
  induction d as [|[k0 v0] d IH]; simpl.
  - by repeat case_decide.
  - destruct (decide (k = k0)) as [->|Hne]; simpl.
    + by repeat case_decide.
    + rewrite IH. repeat case_decide; congruence.
Qed.
End dict.

Lemma fs_events_silent (evs : list event) :
  forallb is_fs_event evs = true → requested evs = [] ∧ sheets_of evs = [].
Proof.
  induction evs as [|e evs IH]; [done|]. simpl.
  intros [He Hevs]%andb_prop. destruct (IH Hevs) as [Hr Hs].
  unfold requested, sheets_of in *. by destruct e; simpl in *.
Qed.

Section run.
Context (w : World) (player_id : Z) (out_dir : string) (sleep_s : Q).

Local Abbreviation body := (main_body w player_id out_dir sleep_s).
Local Abbreviation loop := (main_loop w player_id out_dir sleep_s).
Local Abbreviation url_of := (make_url player_id).

Lemma save_loop_fs base_name (l : list (Z * DataFrame)) saved st :
  ∃ evs r,
    fold_io (save_table w out_dir base_name) saved l st = (push st evs, r)
    ∧ forallb is_fs_event evs = true.
Proof.
  revert saved st. induction l as [|idf l IH]; intros saved st.
  - exists [], (Ok saved). by rewrite push_nil.
  - rewrite fold_io_cons.
    destruct (df_to_csv w (csv_path out_dir base_name idf.1) idf.2)
      as [[]|e] eqn:Hcsv.
    + rewrite (save_table_ok _ _ _ _ _ _ Hcsv).
      destruct (IH (saved ++ [csv_path out_dir base_name idf.1])
                  (push st [EvToCsv (csv_path out_dir base_name idf.1)
                                    idf.2]))
        as (evs & r & -> & Hfs).
      eexists _, r. rewrite push_push. split; [done|]. done.
    + rewrite (save_table_fail _ _ _ _ _ _ _ Hcsv). by eexists [_], _.
Qed.

Lemma save_tables_fs tables base_name st :
  ∃ evs r,
    save_tables w tables out_dir base_name st = (push st evs, r)
    ∧ forallb is_fs_event evs = true.
Proof.
  unfold save_tables. rewrite emit_bind, lift_bind.
  destruct (os_makedirs w out_dir) as [[]|e].
  - destruct (save_loop_fs base_name (enumerate1 tables) []
                (push st [EvMakedirs out_dir])) as (evs & r & -> & Hfs).
    eexists _, r. rewrite push_push. split; [done|]. done.
  - by eexists [_], _.
Qed.

Lemma read_tables_has_cells html dfs :
  read_tables_from_html w html = Ok dfs →
  Forall (λ df, has_cells df = true) dfs.
Proof.
  unfold read_tables_from_html.
  destruct (pd_read_html w _) as [raw|e]; simpl; [|done].
  intros [= <-]. rewrite clean_fold. simpl.
  apply Forall_forall. intros df Hin.
  by apply list_elem_of_In, List.filter_In in Hin as [_ ?].
Qed.

Lemma normalize_tables_page_ok dfs meta dfs2 :
  dfs ≠ [] →
  Forall (λ df, has_cells df = true) dfs →
  length meta = 5%nat →
  normalize_tables dfs meta = Ok dfs2 →
  page_ok dfs2.
Proof.
  intros Hne Hcells Hmeta Hnorm. unfold normalize_tables, enumerate1 in Hnorm.
  apply (normalize_loop_Ok meta dfs 0 []) in Hnorm
    as (new & -> & Hlen & Hall).
  simpl. split.
  - destruct new; [|done]. destruct dfs; [done|discriminate].
  - apply Forall_lookup. intros i df2 Hi.
    destruct (dfs !! i) as [df|] eqn:Hdf.
    2: { apply lookup_ge_None in Hdf. apply lookup_lt_Some in Hi. lia. }
    destruct (Hall i df Hdf) as (df2' & Hi' & Hnt).
    assert (df2' = df2) as -> by congruence.
    apply normalize_table_Ok in Hnt as [Hn Hc].
    rewrite Forall_lookup in Hcells. specialize (Hcells i df Hdf).
    unfold has_cells in Hcells.
    apply negb_true_iff, orb_false_iff in Hcells as [Hr Hcol].
    apply bool_decide_eq_false in Hr, Hcol.
    split; [lia|]. split; [|by rewrite Hc].
    unfold ncols in *. rewrite Hc. simpl.
    rewrite length_app, length_reverse, length_fmap.
    assert (0 < length (columns df))%nat by lia. lia.
Qed.
End run.

Section run_summary.
Context (w : World) (player_id : Z) (out_dir : string) (sleep_s : Q).

Local Abbreviation body := (main_body w player_id out_dir sleep_s).
Local Abbreviation loop := (main_loop w player_id out_dir sleep_s).
Local Abbreviation url_of := (make_url player_id).

(** One step, in full: the events it adds hold one request and no sheet;
    it appends no failure or one, for its URL; it leaves the tables or
    sets the entry of its page key to a list that [page_ok] accepts. *)
Lemma main_body_cases spec st :
  ∃ evs fs tabs,
    body spec st
    = ({| all_tables := tabs; failures := failures st ++ fs;
          trace := trace st ++ evs |}, Ok ())
    ∧ requested evs = [url_of spec]
    ∧ sheets_of evs = []
    ∧ (fs = [] ∨ ∃ e, fs = [(url_of spec, e)])
    ∧ (tabs = all_tables st
       ∨ ∃ dfs2, page_ok dfs2
                 ∧ tabs = dict_set (page_key spec) dfs2 (all_tables st)).
Proof.
  destruct (session_get w (url_of spec)) as [r|e] eqn:Hget.
  2: { rewrite (main_body_transport_error _ _ _ _ _ _ e Hget).
       eexists [_], [_], _. split; [reflexivity|]. eauto 10. }
  destruct (Qlt_le_dec sleep_s 0) as [Hsleep|Hsleep].
  { rewrite (main_body_negative_sleep _ _ _ _ _ _ r Hget Hsleep).
    eexists [_], [_], _. split; [reflexivity|]. eauto 10. }
  destruct (decide (status_code r = 200)) as [Hst|Hst].
  2: { rewrite (main_body_http_error _ _ _ _ _ _ r Hget Hsleep Hst).
       eexists [_; _], [_], _. split; [reflexivity|]. eauto 10. }
  unfold main_body, try_except.
  rewrite io_bind_eq, (fetch_html_response _ _ _ _ r Hget Hsleep).
  rewrite bool_decide_eq_true_2 by done.
  rewrite lift_bind.
  destruct (read_tables_from_html w (text r)) as [[|df dfs]|e] eqn:Hread.
  - exists [EvGet (url_of spec); EvSleep sleep_s], [], (all_tables st).
    rewrite app_nil_r. split; [reflexivity|]. eauto 10.
  - rewrite lift_bind.
    destruct (normalize_tables (df :: dfs) _) as [dfs2|e] eqn:Hnorm.
    + assert (page_ok dfs2) as Hpage.
      { pose proof (read_tables_has_cells w _ _ Hread) as Hcells.
        by apply (λ Hne Hlen, normalize_tables_page_ok
                                _ (page_meta _ _ _) _ Hne Hcells Hlen Hnorm). }
      rewrite io_bind_eq. unfold set_tables at 1. rewrite io_bind_eq.
      match goal with
      | |- context [save_tables w dfs2 out_dir ?k ?s] =>
          destruct (save_tables_fs w out_dir dfs2 k s)
            as (evs & res & -> & Hfs)
      end.
      apply fs_events_silent in Hfs as [Hreq Hsheets].
      destruct res as [saved|e].
      * exists ([EvGet (url_of spec); EvSleep sleep_s] ++ evs), [],
          (dict_set (page_key spec) dfs2 (all_tables st)).
        split.
        { unfold push. simpl. by rewrite <-app_assoc, app_nil_r. }
        rewrite requested_app, sheets_of_app, Hreq, Hsheets. eauto 10.
      * exists ([EvGet (url_of spec); EvSleep sleep_s] ++ evs),
          [(url_of spec, e)],
          (dict_set (page_key spec) dfs2 (all_tables st)).
        split.
        { unfold push, append_failure. simpl. by rewrite <-app_assoc. }
        rewrite requested_app, sheets_of_app, Hreq, Hsheets. eauto 10.
    + eexists [_; _], [_], _. split; [reflexivity|]. eauto 10.
  - eexists [_; _], [_], _. split; [reflexivity|]. eauto 10.
Qed.

(** The whole loop, from any state. *)
Lemma main_loop_run specs st :
  ∃ evs fs tabs,
    loop specs st
    = ({| all_tables := tabs; failures := failures st ++ fs;
          trace := trace st ++ evs |}, Ok ())
    ∧ requested evs = url_of <$> specs
    ∧ sheets_of evs = []
    ∧ fs.*1 `sublist_of` (url_of <$> specs)
    ∧ (NoDup (all_tables st).*1 → NoDup tabs.*1)
    ∧ (Forall page_ok (all_tables st).*2 → Forall page_ok tabs.*2)
    ∧ (∀ k, k ∈ tabs.*1 →
            k ∈ (all_tables st).*1 ∨ k ∈ page_key <$> specs).
Proof.
  revert st. induction specs as [|spec specs IH]; intros st.
  - exists [], [], (all_tables st). rewrite !app_nil_r.
    split; [by destruct st|]. repeat (split; [done|]). eauto.
  - destruct (main_body_cases spec st)
      as (evs1 & fs1 & tabs1 & Hbody & Hreq1 & Hsh1 & Hfs1 & Htabs1).
    rewrite (main_loop_cons _ _ _ _ _ _ _ _ Hbody).
    destruct (IH {| all_tables := tabs1; failures := failures st ++ fs1;
                    trace := trace st ++ evs1 |})
      as (evs2 & fs2 & tabs & Hloop & Hreq2 & Hsh2 & Hfs2 & Hnd & Hok & Hkeys).
    simpl in *.
    exists (evs1 ++ evs2), (fs1 ++ fs2), tabs.
    rewrite Hloop, <-!app_assoc. split; [done|].
    split; [by rewrite requested_app, Hreq1, Hreq2|].
    split; [by rewrite sheets_of_app, Hsh1, Hsh2|].
    split; [|split; [|split]].
    + rewrite fmap_app. fold (@fmap list _ _ _ url_of specs).
      change (url_of spec :: (url_of <$> specs))
        with ([url_of spec] ++ (url_of <$> specs)).
      apply sublist_app; [|done].
      destruct Hfs1 as [->|[e ->]]; [apply sublist_nil_l|done].
    + intros Hst. apply Hnd.
      destruct Htabs1 as [->|(dfs2 & _ & ->)]; [done|].
      by apply dict_set_NoDup.
    + intros Hst. apply Hok.
      destruct Htabs1 as [->|(dfs2 & Hpage & ->)]; [done|].
      by apply dict_set_values.
    + intros k [Hk|Hk]%Hkeys; [|right; by right].
      destruct Htabs1 as [->|(dfs2 & _ & ->)]; [by left|].
      apply dict_set_elem_of in Hk as [->|Hk]; [right; by left|by left].
Qed.
End run_summary.

(** X16. Through a run from the empty state, [all_tables] keeps pairwise
    different keys, each the page key of a spec of the run, and under each
    key a list of at least one table, every table with a row or more, with
    seven columns or more and with [_table_index] as its leftmost
    column. *)
Theorem main_loop_tables_invariant (w : World) (player_id : Z)
    (out_dir : string) (sleep_s : Q) (specs : list QuerySpec) :
  let st := (main_loop w player_id out_dir sleep_s specs init_state).1 in
  NoDup (all_tables st).*1
  ∧ Forall page_ok (all_tables st).*2
  ∧ ∀ k, k ∈ (all_tables st).*1 → k ∈ page_key <$> specs.
Proof.
  destruct (main_loop_run w player_id out_dir sleep_s specs init_state)
    as (evs & fs & tabs & -> & _ & _ & _ & Hnd & Hok & Hkeys).
  simpl. split; [apply Hnd; constructor|].
  split; [apply Hok; constructor|].
  intros k [Hk|Hk]%Hkeys; [by apply elem_of_nil in Hk|done].
Qed.

(** X17. The failures of a run come in the order of its specs, at most
    one for a spec and under the URL of that spec; so there are never more
    failures than specs. *)
Theorem main_loop_failures_in_order (w : World) (player_id : Z)
    (out_dir : string) (sleep_s : Q) (specs : list QuerySpec)
    (st : RunState) :
  ∃ fs,
    failures (main_loop w player_id out_dir sleep_s specs st).1
    = failures st ++ fs
    ∧ fs.*1 `sublist_of` (make_url player_id <$> specs)
    ∧ (length fs ≤ length specs)%nat.
Proof.
  destruct (main_loop_run w player_id out_dir sleep_s specs st)
    as (evs & fs & tabs & -> & _ & _ & Hfs & _).
  exists fs. split; [done|]. split; [done|].
  apply sublist_length in Hfs. by rewrite !length_fmap in Hfs.
Qed.

(** X18. A request that fails in transport is recorded under its URL with
    the text of the error, no pause follows it, the tables stay, and the
    loop goes on with the next spec. *)
Theorem main_loop_transport_failure (w : World) (player_id : Z)
    (out_dir : string) (sleep_s : Q) (spec : QuerySpec)
    (post : list QuerySpec) (st : RunState) (e : string) :
  session_get w (make_url player_id spec) = Raise e →
  main_loop w player_id out_dir sleep_s (spec :: post) st
  = main_loop w player_id out_dir sleep_s post
      {| all_tables := all_tables st;
         failures := failures st ++ [(make_url player_id spec, e)];
         trace := trace st ++ [EvGet (make_url player_id spec)] |}.
Proof.
  intros Hget. apply main_loop_cons.
  by apply main_body_transport_error.
Qed.

Lemma main_loop_transport_failure_witness :
  failures (main_loop offline 625371 "out" (Qmake 7 10)
              [dismissal_spec] init_state).1
  = [(make_url 625371 dismissal_spec, "Read timed out.")].
Proof.
  rewrite (main_loop_transport_failure offline 625371 "out" (Qmake 7 10)
             dismissal_spec [] init_state "Read timed out.").
  - reflexivity.
  - reflexivity.
Defined.


